(** * Stock market dashboard: the indicator pipeline of [main.py]

    A shallow embedding of the data path of [main.py]: loading,
    preprocessing ([fillna], [dropna], [sort_values]), the per-symbol
    indicators ([SMA_50], [SMA_200], [RSI], [MACD]) and the symbol/date
    filter that feeds the charts.

    Numbers.  A pandas [float64] is modelled by [float64] below: the IEEE-754
    special values (not-a-number, the two infinities, the negative zero) are
    explicit and follow the IEEE rules, while finite values are exact
    rationals.  Rounding, overflow and underflow of binary64 are therefore not
    part of the model: every statement about a finite value is a statement
    about the exact result of the formula the code evaluates.

    pandas.  The script is a sequence of pandas calls; each call it makes
    ([diff], [clip], [rolling(..).mean()], [ewm(..).mean()], [fillna],
    [dropna], [sort_values], [groupby(..).transform], boolean indexing) is a
    function below that follows the behaviour of the library for the
    arguments the script passes.  Streamlit widgets are inputs of [main]. *)

From Stdlib Require Import String Ascii.
From Stdlib Require Import QArith Qcanon ZArith List Bool Lia OrdersEx Sorted.
From Stdlib Require Import Permutation.
From Stdlib Require Import Lqa.
Import ListNotations.

Local Open Scope Qc_scope.

(* ================================================================= *)
(** ** Rationals: constants and boolean comparisons *)

Definition Qc_of_Z (z : Z) : Qc := Q2Qc (inject_Z z).
Definition Qc_of_nat (n : nat) : Qc := Qc_of_Z (Z.of_nat n).

Definition Qcleb (a b : Qc) : bool :=
  match a ?= b with Gt => false | _ => true end.
Definition Qcltb (a b : Qc) : bool :=
  match a ?= b with Lt => true | _ => false end.

(* ================================================================= *)
(** ** float64 values *)

Module Float.

(** [Fin 0] is the positive zero, [NegZero] the negative one; a finite
    non-zero value is [Fin q]. *)
Inductive float64 : Type :=
| NaN
| PInf
| NInf
| NegZero
| Fin (q : Qc).

Definition of_Z (z : Z) : float64 := Fin (Qc_of_Z z).

Definition isnan (x : float64) : bool :=
  match x with NaN => true | _ => false end.

Definition is_inf (x : float64) : bool :=
  match x with PInf | NInf => true | _ => false end.

Definition is_zero (x : float64) : bool :=
  match x with
  | NegZero => true
  | Fin q => Qc_eq_bool q 0
  | _ => false
  end.

Definition signbit (x : float64) : bool :=
  match x with
  | NInf | NegZero => true
  | Fin q => Qcltb q 0
  | _ => false
  end.

(** The rational a finite value stands for (both zeros stand for 0). *)
Definition val (x : float64) : Qc :=
  match x with Fin q => q | _ => 0 end.

Definition zero_of (negative : bool) : float64 :=
  if negative then NegZero else Fin 0.
Definition inf_of (negative : bool) : float64 :=
  if negative then NInf else PInf.

Definition neg (x : float64) : float64 :=
  match x with
  | NaN => NaN
  | PInf => NInf
  | NInf => PInf
  | NegZero => Fin 0
  | Fin q => if Qc_eq_bool q 0 then NegZero else Fin (- q)
  end.

(** Addition: an exact zero sum of two finite values is the positive zero
    (round to nearest), except (-0) + (-0). *)
Definition add (x y : float64) : float64 :=
  match x, y with
  | NaN, _ | _, NaN => NaN
  | PInf, NInf | NInf, PInf => NaN
  | PInf, _ | _, PInf => PInf
  | NInf, _ | _, NInf => NInf
  | NegZero, NegZero => NegZero
  | NegZero, Fin q | Fin q, NegZero => Fin q
  | Fin a, Fin b => Fin (a + b)
  end.

Definition sub (x y : float64) : float64 := add x (neg y).

Definition mul (x y : float64) : float64 :=
  if isnan x || isnan y then NaN
  else
    let s := xorb (signbit x) (signbit y) in
    if is_inf x || is_inf y then
      (if is_zero x || is_zero y then NaN else inf_of s)
    else if is_zero x || is_zero y then zero_of s
    else Fin (val x * val y).

Definition div (x y : float64) : float64 :=
  if isnan x || isnan y then NaN
  else
    let s := xorb (signbit x) (signbit y) in
    if is_inf x then (if is_inf y then NaN else inf_of s)
    else if is_inf y then zero_of s
    else if is_zero y then (if is_zero x then NaN else inf_of s)
    else if is_zero x then zero_of s
    else Fin (val x / val y).

(** [x <= y]; false as soon as one side is not a number. *)
Definition le (x y : float64) : bool :=
  match x, y with
  | NaN, _ | _, NaN => false
  | NInf, _ | _, PInf => true
  | PInf, _ | _, NInf => false
  | _, _ => Qcleb (val x) (val y)
  end.

(** [x == y] of IEEE: the two zeros are equal, NaN equals nothing. *)
Definition eqb (x y : float64) : bool := le x y && le y x.


End Float.
Import Float.

(* ================================================================= *)
(** ** pandas Series operations used by the script *)

Definition Series : Type := list float64.

(** [Series.diff()]: first element undefined, then [s[i] - s[i-1]]. *)
Definition diff (s : Series) : Series :=
  match s with
  | [] => []
  | _ :: t => NaN :: map (fun p => sub (fst p) (snd p)) (combine t s)
  end.

(** [Series.clip(lower=lo)] and [Series.clip(upper=hi)]: missing values are
    kept, every other value below [lo] (above [hi]) is replaced by the
    bound. *)
Definition clip_lower (lo : float64) (s : Series) : Series :=
  map (fun x => if isnan x || le lo x then x else lo) s.
Definition clip_upper (hi : float64) (s : Series) : Series :=
  map (fun x => if isnan x || le x hi then x else hi) s.

(** Window aggregations replace infinities by NaN before they run. *)
Definition prep (x : float64) : float64 := if is_inf x then NaN else x.


(** The trailing window of [w] positions ending at [i] (shorter at the
    start of the series). *)
Definition window {A : Type} (w i : nat) (s : list A) : list A :=
  skipn (S i - w) (firstn (S i) s).

Definition fsum (l : list float64) : float64 := fold_left add l (Fin 0).

Definition observed (x : float64) : bool := negb (isnan x).

(** Mean of one window: the sum of its observations (the values that are
    not NaN) over their number, undefined when there are fewer than [minp]
    of them. *)
Definition mean_window (minp : nat) (win : Series) : float64 :=
  let obs := filter observed (map prep win) in
  let nobs := length obs in
  if (minp <=? nobs)%nat && (0 <? nobs)%nat
  then div (fsum obs) (Fin (Qc_of_nat nobs))
  else NaN.

(** [Series.rolling(window=w).mean()]: [min_periods] defaults to [w]. *)
Definition rolling_mean (w : nat) (s : Series) : Series :=
  map (fun i => mean_window w (window w i s)) (seq 0 (length s)).

(** Elementwise binary operation of two aligned series. *)
Definition zip_with (f : float64 -> float64 -> float64) (a b : Series) : Series :=
  map (fun p => f (fst p) (snd p)) (combine a b).

(* ================================================================= *)
(** ** [compute_rsi] *)

Definition rsi_delta (series : Series) : Series := diff series.

Definition rsi_gain (period : nat) (series : Series) : Series :=
  rolling_mean period (clip_lower (of_Z 0) (rsi_delta series)).

Definition rsi_loss (period : nat) (series : Series) : Series :=
  map neg (rolling_mean period (clip_upper (of_Z 0) (rsi_delta series))).

Definition rsi_rs (period : nat) (series : Series) : Series :=
  zip_with div (rsi_gain period series) (rsi_loss period series).

Definition rsi_of_rs (rs : float64) : float64 :=
  sub (of_Z 100) (div (of_Z 100) (add (of_Z 1) rs)).

Definition compute_rsi_period (period : nat) (series : Series) : Series :=
  map rsi_of_rs (rsi_rs period series).

(** [period] defaults to 14, the only value the script uses. *)
Definition compute_rsi (series : Series) : Series := compute_rsi_period 14 series.

(* ================================================================= *)
(** ** Exponentially weighted mean, [Series.ewm(span, adjust=False).mean()] *)

(** pandas turns the span into a centre of mass and that into the smoothing
    factor. *)
Definition com_of_span (span : Z) : Qc := (Qc_of_Z span - 1) / Qc_of_Z 2.
Definition alpha_of_span (span : Z) : Qc := 1 / (1 + com_of_span span).

(** State of the single pass over the values: the running mean, the weight
    of the history and the number of observations met so far. *)
Record ewm_state : Type := mk_ewm
  { weighted : float64; old_wt : float64; nobs : nat }.

Definition ewm_out (minp : nat) (st : ewm_state) : float64 :=
  if (minp <=? nobs st)%nat then weighted st else NaN.

(** One iteration of the pass with [adjust=False], [ignore_na=False]. *)
Definition ewm_step (old_wt_factor new_wt : float64)
           (st : ewm_state) (cur : float64) : ewm_state :=
  let is_observation := negb (isnan cur) in
  let nobs' := (nobs st + if is_observation then 1 else 0)%nat in
  if negb (isnan (weighted st)) then
    let old_wt' := mul (old_wt st) old_wt_factor in
    if is_observation then
      let weighted' :=
        if negb (eqb (weighted st) cur)
        then div (add (mul old_wt' (weighted st)) (mul new_wt cur))
                 (add old_wt' new_wt)
        else weighted st in
      mk_ewm weighted' (of_Z 1) nobs'
    else mk_ewm (weighted st) old_wt' nobs'
  else if is_observation then mk_ewm cur (old_wt st) nobs'
  else mk_ewm (weighted st) (old_wt st) nobs'.

Fixpoint ewm_loop (old_wt_factor new_wt : float64) (minp : nat)
         (st : ewm_state) (vals : Series) : Series :=
  match vals with
  | [] => []
  | cur :: rest =>
      let st' := ewm_step old_wt_factor new_wt st cur in
      ewm_out minp st' :: ewm_loop old_wt_factor new_wt minp st' rest
  end.

(** [min_periods] is 0 by default, which the pass raises to 1. *)
Definition ewm_mean (span : Z) (s : Series) : Series :=
  let alpha := alpha_of_span span in
  match map prep s with
  | [] => []
  | v0 :: rest =>
      let st0 := mk_ewm v0 (of_Z 1) (if isnan v0 then 0 else 1) in
      ewm_out 1 st0 :: ewm_loop (Fin (1 - alpha)) (Fin alpha) 1 st0 rest
  end.

(* ================================================================= *)
(** ** The data frame *)

(** A cell of a column the script does not compute with: text or number.
    A missing cell is the number NaN, as after [read_csv]. *)
Inductive cell : Type :=
| Text (s : string)
| Num (x : float64).

Definition cell_isna (c : cell) : bool :=
  match c with Text _ => false | Num x => isnan x end.

(** One row of [df].  [Symbol] and [Date] are [None] when missing; [Date] is
    the day number of the parsed date; [Other] holds the remaining columns
    (Open, High, Low, Category, Volatility, Daily_Return, ...), in the order
    of the file. *)
Record Row : Type := mkRow
  { Symbol : option string;
    Date : option Z;
    Close : float64;
    Other : list cell }.

Definition DataFrame : Type := list Row.

(* ----------------------------------------------------------------- *)
(** *** [df.fillna(method='ffill')] *)

Definition fill_opt {A : Type} (prev cur : option A) : option A :=
  match cur with Some _ => cur | None => prev end.
Definition fill_float (prev cur : float64) : float64 :=
  if isnan cur then prev else cur.
Definition fill_cell (prev cur : cell) : cell :=
  if cell_isna cur then prev else cur.

Fixpoint fill_cells (prev cur : list cell) : list cell :=
  match prev, cur with
  | p :: ps, c :: cs => fill_cell p c :: fill_cells ps cs
  | _, _ => cur
  end.

(** Every column takes the last value seen above when its own is missing. *)
Definition fill_row (prev cur : Row) : Row :=
  mkRow (fill_opt (Symbol prev) (Symbol cur))
        (fill_opt (Date prev) (Date cur))
        (fill_float (Close prev) (Close cur))
        (fill_cells (Other prev) (Other cur)).

Fixpoint ffill_from (prev : Row) (rows : DataFrame) : DataFrame :=
  match rows with
  | [] => []
  | r :: rest => let r' := fill_row prev r in r' :: ffill_from r' rest
  end.

Definition ffill (df : DataFrame) : DataFrame :=
  match df with
  | [] => []
  | r :: rest => r :: ffill_from r rest
  end.

(* ----------------------------------------------------------------- *)
(** *** [df.dropna()] *)

Definition is_none {A : Type} (o : option A) : bool :=
  match o with None => true | Some _ => false end.

(** Some value of the row is missing. *)
Definition row_has_na (r : Row) : bool :=
  is_none (Symbol r) || is_none (Date r) || isnan (Close r)
  || existsb cell_isna (Other r).

(** Every value of the row is missing. *)
Definition row_all_na (r : Row) : bool :=
  is_none (Symbol r) && is_none (Date r) && isnan (Close r)
  && forallb cell_isna (Other r).

(** [how] defaults to ['any']: a row goes as soon as one value is missing. *)
Definition dropna (df : DataFrame) : DataFrame :=
  filter (fun r => negb (row_has_na r)) df.

(* ----------------------------------------------------------------- *)
(** *** [df.sort_values(by=['Symbol', 'Date'])] *)

(** Missing keys sort last. *)
Definition opt_compare {A : Type} (cmp : A -> A -> comparison)
           (a b : option A) : comparison :=
  match a, b with
  | Some x, Some y => cmp x y
  | Some _, None => Lt
  | None, Some _ => Gt
  | None, None => Eq
  end.

Definition key_compare (a b : Row) : comparison :=
  match opt_compare String_as_OT.compare (Symbol a) (Symbol b) with
  | Eq => opt_compare Z.compare (Date a) (Date b)
  | c => c
  end.

Definition key_le (a b : Row) : bool :=
  match key_compare a b with Gt => false | _ => true end.

(** With several keys pandas sorts lexicographically and stably: rows with
    equal keys keep their order.  Insertion from the right is such a
    sort. *)
Fixpoint insert_row (r : Row) (sorted : DataFrame) : DataFrame :=
  match sorted with
  | [] => [r]
  | x :: rest => if key_le r x then r :: sorted else x :: insert_row r rest
  end.

Fixpoint sort_values (df : DataFrame) : DataFrame :=
  match df with
  | [] => []
  | r :: rest => insert_row r (sort_values rest)
  end.

(** Sorted by key, every row before all rows of greater or equal key. *)
Definition key_sorted : DataFrame -> Prop :=
  StronglySorted (fun a b => key_le a b = true).

(** The preprocessing block, in the order of the script; [to_datetime]
    and [reset_index] do not change a frame whose dates are day numbers
    and whose index is the position. *)
Definition preprocess (df : DataFrame) : DataFrame :=
  sort_values (dropna (ffill df)).

(* ================================================================= *)
(** ** [df.groupby('Symbol')['Close'].transform(f)] *)

Definition has_symbol (k : string) (r : Row) : bool :=
  match Symbol r with Some s => String.eqb s k | None => false end.

(** The rows of one symbol, in frame order: the symbol's partition. *)
Definition group_rows (k : string) (df : DataFrame) : DataFrame :=
  filter (has_symbol k) df.

Definition group_close (k : string) (df : DataFrame) : Series :=
  map Close (group_rows k df).

(** [f] is applied to the closes of each group and every result goes back
    to the position of its row; [seen] are the rows before the current one.
    A row without symbol belongs to no group. *)
Fixpoint transform_from (f : Series -> Series) (df seen rest : DataFrame)
  : Series :=
  match rest with
  | [] => []
  | r :: rest' =>
      match Symbol r with
      | None => NaN
      | Some k => nth (length (group_rows k seen)) (f (group_close k df)) NaN
      end :: transform_from f df (seen ++ [r]) rest'
  end.

Definition transform (f : Series -> Series) (df : DataFrame) : Series :=
  transform_from f df [] df.

(* ================================================================= *)
(** ** The indicator columns *)

Definition SMA_50_column (df : DataFrame) : Series :=
  transform (rolling_mean 50) df.
Definition SMA_200_column (df : DataFrame) : Series :=
  transform (rolling_mean 200) df.
Definition RSI_column (df : DataFrame) : Series :=
  transform compute_rsi df.
Definition ema_12 (df : DataFrame) : Series := transform (ewm_mean 12) df.
Definition ema_26 (df : DataFrame) : Series := transform (ewm_mean 26) df.
Definition MACD_column (df : DataFrame) : Series :=
  zip_with sub (ema_12 df) (ema_26 df).

(** A row of [df] once the four columns are assigned. *)
Record IndicatorRow : Type := mkIndicatorRow
  { base : Row;
    SMA_50 : float64;
    SMA_200 : float64;
    RSI : float64;
    MACD : float64 }.

Fixpoint attach (rows : DataFrame) (c1 c2 c3 c4 : Series) : list IndicatorRow :=
  match rows, c1, c2, c3, c4 with
  | r :: rows', a :: c1', b :: c2', c :: c3', d :: c4' =>
      mkIndicatorRow r a b c d :: attach rows' c1' c2' c3' c4'
  | _, _, _, _, _ => []
  end.

Definition add_indicators (df : DataFrame) : list IndicatorRow :=
  attach df (SMA_50_column df) (SMA_200_column df) (RSI_column df)
         (MACD_column df).

(** The rows of symbol [k] in the frame with indicators. *)
Definition partition (k : string) (df : list IndicatorRow) : list IndicatorRow :=
  filter (fun r => has_symbol k (base r)) df.

(** The values of a column on the rows of symbol [k]. *)
Definition select (k : string) (rows : DataFrame) (col : Series) : Series :=
  map snd (filter (fun p => has_symbol k (fst p)) (combine rows col)).

(** The four indicators computed on the rows of one symbol alone. *)
Definition compute_partition (rows : DataFrame) : list IndicatorRow :=
  let close := map Close rows in
  attach rows (rolling_mean 50 close) (rolling_mean 200 close)
         (compute_rsi close)
         (zip_with sub (ewm_mean 12 close) (ewm_mean 26 close)).

(* ================================================================= *)
(** ** The filter behind the charts *)

Definition isin (s : option string) (selected_symbols : list string) : bool :=
  match s with
  | Some x => existsb (String.eqb x) selected_symbols
  | None => false
  end.

Definition date_ge (d : option Z) (bound : Z) : bool :=
  match d with Some x => (bound <=? x)%Z | None => false end.
Definition date_le (d : option Z) (bound : Z) : bool :=
  match d with Some x => (x <=? bound)%Z | None => false end.

Definition keep_row (selected_symbols : list string) (start_date end_date : Z)
           (r : IndicatorRow) : bool :=
  isin (Symbol (base r)) selected_symbols
  && date_ge (Date (base r)) start_date
  && date_le (Date (base r)) end_date.

Definition filtered_df (df : list IndicatorRow) (selected_symbols : list string)
           (start_date end_date : Z) : list IndicatorRow :=
  filter (keep_row selected_symbols start_date end_date) df.

(* ================================================================= *)
(** ** The script *)

Inductive message : Type :=
| Info (text : string)
| Warning (text : string).

Inductive stage : Type :=
| Preprocessing | Indicators | Filtering | Rendering.

(** What a run does that can be observed: messages shown to the user and
    the stages it enters. *)
Inductive event : Type :=
| Shown (m : message)
| Entered (s : stage).

Inductive result (A : Type) : Type :=
| Ok (a : A)
| Halted                 (* [st.stop()] *)
| Raised (exn : string). (* uncaught exception *)
Arguments Ok {A} a.
Arguments Halted {A}.
Arguments Raised {A} exn.

(** A script step: the events it produced and how it ended. *)
Definition Script (A : Type) : Type := (list event * result A)%type.

Definition ret {A : Type} (a : A) : Script A := ([], Ok a).
Definition bind {A B : Type} (m : Script A) (k : A -> Script B) : Script B :=
  match m with
  | (log, Ok a) => let (log', r) := k a in (log ++ log', r)
  | (log, Halted) => (log, Halted)
  | (log, Raised e) => (log, Raised e)
  end.
Definition emit (e : event) : Script unit := ([e], Ok tt).
Definition stop {A : Type} : Script A := ([], Halted).
Definition raise {A : Type} (exn : string) : Script A := ([], Raised exn).

Notation "x <- m ;; k" := (bind m (fun x => k))
  (at level 61, m at next level, right associativity).
Notation "m ;;; k" := (bind m (fun _ => k))
  (at level 61, right associativity).

(** Data loading.  [uploaded_file] is the content of the uploaded file, if
    any; [local_file] the content of [Nifty_Stocks.csv], if the file
    exists. *)
Definition load (uploaded_file local_file : option DataFrame) : Script DataFrame :=
  match uploaded_file with
  | Some df => ret df
  | None =>
      match local_file with
      | Some df =>
          emit (Shown (Info "✅ Loaded Nifty_Stocks.csv from local folder.")) ;;;
          ret df
      | None =>
          emit (Shown (Warning "⚠️ Please upload a CSV file to continue.")) ;;;
          stop
      end
  end.

(** What the rest of the page is drawn from. *)
Record Dashboard : Type := mkDashboard
  { df_final : list IndicatorRow;
    view : list IndicatorRow }.

(** The sidebar: the default of the symbol selector reads the first symbol
    of the frame, which fails on an empty frame.  The selection and the
    date range themselves come from the user. *)
Definition sidebar (df : list IndicatorRow) : Script unit :=
  match df with
  | [] => raise "IndexError"
  | _ :: _ => ret tt
  end.

Definition main (uploaded_file local_file : option DataFrame)
           (selected_symbols : list string) (start_date end_date : Z)
  : Script Dashboard :=
  raw <- load uploaded_file local_file ;;
  emit (Entered Preprocessing) ;;;
  let df := preprocess raw in
  emit (Entered Indicators) ;;;
  let df := add_indicators df in
  sidebar df ;;;
  emit (Entered Filtering) ;;;
  let v := filtered_df df selected_symbols start_date end_date in
  emit (Entered Rendering) ;;;
  ret (mkDashboard df v).

(* ================================================================= *)
(** ** The formulas of the specification

    Written from the text of the specification, over exact closes, to be
    compared with what the code computes. *)

Module Spec.

(** [x[k]] *)
Definition at_ (x : list Qc) (k : nat) : Qc := nth k x 0.

Definition qsum (l : list Qc) : Qc := fold_right Qcplus 0 l.

Definition Qcmax (a b : Qc) : Qc := if Qcleb a b then b else a.

(** Arithmetic mean of [x lo .. x (lo+n-1)]. *)
Definition mean (x : nat -> Qc) (lo n : nat) : Qc :=
  qsum (map x (seq lo n)) / Qc_of_nat n.

(** "[sma[i]] is the arithmetic mean of [close[i-W+1 .. i]] if i >= W-1,
    else undefined". *)
Definition sma (W : nat) (close : list Qc) (i : nat) : float64 :=
  if (i <? W - 1)%nat then NaN else Fin (mean (at_ close) (i + 1 - W) W).

(** "[d[i] = close[i] - close[i-1]]", "[gain[i] = max(d[i], 0)]",
    "[loss[i] = max(-d[i], 0)]". *)
Definition d (close : list Qc) (i : nat) : Qc :=
  at_ close i - at_ close (i - 1).
Definition gain (close : list Qc) (i : nat) : Qc := Qcmax (d close i) 0.
Definition loss (close : list Qc) (i : nat) : Qc := Qcmax (- d close i) 0.

(** Rolling means over the trailing 14 values. *)
Definition avg_gain (close : list Qc) (i : nat) : Qc :=
  mean (gain close) (i - 13) 14.
Definition avg_loss (close : list Qc) (i : nat) : Qc :=
  mean (loss close) (i - 13) 14.

(** "[rs[i] = avg_gain[i] / avg_loss[i]]; [rsi[i] = 100 - 100/(1+rs[i])]",
    undefined until 14 deltas exist. *)
Definition rs (close : list Qc) (i : nat) : float64 :=
  div (Fin (avg_gain close i)) (Fin (avg_loss close i)).
Definition rsi (close : list Qc) (i : nat) : float64 :=
  if (i <? 14)%nat then NaN
  else sub (of_Z 100) (div (of_Z 100) (add (of_Z 1) (rs close i))).

(** Forward fill of one column: the value at row [i], or the last value
    present above it when it is missing. *)
Fixpoint last_valid {V : Type} (isna : V -> bool) (col : nat -> V) (i : nat) : V :=
  match i with
  | O => col O
  | S j => if isna (col i) then last_valid isna col j else col i
  end.

(** "[ema[0] = close[0]]; [ema[i] = alpha*close[i] + (1-alpha)*ema[i-1]]". *)
Fixpoint ema (alpha : Qc) (close : list Qc) (i : nat) : Qc :=
  match i with
  | O => at_ close 0
  | S j => alpha * at_ close i + (1 - alpha) * ema alpha close j
  end.

(** "[alpha = 2/(span+1)]" *)
Definition alpha (span : Z) : Qc := Qc_of_Z 2 / (Qc_of_Z span + 1).







End Spec.

(* ================================================================= *)
(** ** The sidebar and the tabs *)

Definition is_some {A : Type} (o : option A) : bool := negb (is_none o).

Definition symbol_eqb (a b : option string) : bool :=
  match a, b with
  | Some x, Some y => String.eqb x y
  | None, None => true
  | _, _ => false
  end.

Definition Symbol_column (df : list IndicatorRow) : list (option string) :=
  map (fun r => Symbol (base r)) df.

(** [Series.unique()]: the distinct values in the order of their first
    appearance. *)
Fixpoint unique (l : list (option string)) : list (option string) :=
  match l with
  | [] => []
  | x :: rest => x :: filter (fun y => negb (symbol_eqb x y)) (unique rest)
  end.

Definition symbol_le (a b : option string) : bool :=
  match opt_compare String_as_OT.compare a b with Gt => false | _ => true end.

Fixpoint insert_symbol (s : option string) (sorted : list (option string))
  : list (option string) :=
  match sorted with
  | [] => [s]
  | x :: rest =>
      if symbol_le s x then s :: sorted else x :: insert_symbol s rest
  end.

Fixpoint sort_symbols (l : list (option string)) : list (option string) :=
  match l with
  | [] => []
  | s :: rest => insert_symbol s (sort_symbols rest)
  end.

(** [sorted(df['Symbol'].unique())], the options of the selector.  Python
    cannot order a string against the NaN of a missing symbol. *)
Definition symbol_options (df : list IndicatorRow) : result (list (option string)) :=
  let u := unique (Symbol_column df) in
  if existsb is_none u && existsb is_some u then Raised "TypeError"
  else Ok (sort_symbols u).

(** [[df['Symbol'].unique()[0]]], the default selection. *)
Definition default_selection (df : list IndicatorRow) : result (list (option string)) :=
  match unique (Symbol_column df) with
  | [] => Raised "IndexError"
  | s :: _ => Ok [s]
  end.

(** The dates present in the frame. *)
Definition dates (df : list IndicatorRow) : list Z :=
  flat_map (fun r => match Date (base r) with Some d => [d] | None => [] end) df.

(** [df['Date'].min()] and [df['Date'].max()]; missing dates are skipped,
    [None] is the result on no date at all. *)
Definition min_date (df : list IndicatorRow) : option Z :=
  match dates df with
  | [] => None
  | d :: rest => Some (fold_left Z.min rest d)
  end.
Definition max_date (df : list IndicatorRow) : option Z :=
  match dates df with
  | [] => None
  | d :: rest => Some (fold_left Z.max rest d)
  end.

(** [filtered_df[filtered_df['Symbol'] == symbol]], what the three charts of
    one symbol are drawn from. *)
Definition stock_data (filtered : list IndicatorRow) (symbol : string)
  : list IndicatorRow :=
  filter (fun r => has_symbol symbol (base r)) filtered.

(** Dates never go down along the rows. *)
Definition date_ascending : list IndicatorRow -> Prop :=
  StronglySorted
    (fun a b => opt_compare Z.compare (Date (base a)) (Date (base b)) <> Gt).

(** [df[name] = ...]: an existing column is replaced in place, a new one
    goes last. *)
Definition column_in (name : string) (columns : list string) : bool :=
  existsb (String.eqb name) columns.
Definition assign_column (name : string) (columns : list string) : list string :=
  if column_in name columns then columns else columns ++ [name].

(** [df.columns] after the indicator lines, from the columns of the file. *)
Definition columns_with_indicators (columns : list string) : list string :=
  assign_column "MACD"
    (assign_column "RSI"
       (assign_column "SMA_200" (assign_column "SMA_50" columns))).

Definition corr_cols : list string :=
  ["Open"; "High"; "Low"; "Close"; "SMA_50"; "SMA_200"; "RSI"; "MACD";
   "Volatility"]%string.

Definition available_cols (columns : list string) : list string :=
  filter (fun col => column_in col columns) corr_cols.

(** What a tab shows: a chart over some columns, or a notice. *)
Inductive tab : Type :=
| Chart (columns : list string)
| Notice (m : message).

Definition tab2 (columns : list string) : tab :=
  if column_in "Category" columns && column_in "Volatility" columns
  then Chart ["Category"; "Volatility"]%string
  else Notice (Info "ℹ️ Volatility or Category data not available in this dataset.").

Definition tab3 (columns : list string) : tab :=
  match available_cols columns with
  | [] => Notice (Info "ℹ️ No numerical columns found for correlation heatmap.")
  | cols => Chart cols
  end.

Definition tab4 (columns : list string) : tab :=
  if column_in "Daily_Return" columns
  then Chart ["Daily_Return"%string]
  else Notice (Info "ℹ️ Daily_Return column not found in this dataset.").

(** The key of a row: what [sort_values] compares. *)
Definition same_key (a b : Row) : bool :=
  match key_compare a b with Eq => true | _ => false end.

(** A frame in which every row has the same number of further columns. *)
Definition rectangular (w : nat) (df : DataFrame) : Prop :=
  Forall (fun r => length (Other r) = w) df.

Definition complete (df : DataFrame) : Prop :=
  Forall (fun r => row_has_na r = false) df.

(* ================================================================= *)
(** ** Sample data *)

Module Sample.

Definition record (s : string) (day : Z) (close : Qc) : Row :=
  mkRow (Some s) (Some day) (Fin close) [].

(** Sixty closes of a symbol that moves up and down. *)
Definition abc_close : list Qc :=
  map (fun n => Qc_of_nat (10 + (n * n) mod 7)) (seq 0 60).

(** A file with the sixty records of "ABC", newest first, each followed by
    a record of "XYZ". *)
Definition raw : DataFrame :=
  flat_map (fun n =>
              [record "ABC" (Z.of_nat n) (Qc_of_nat (10 + (n * n) mod 7));
               record "XYZ" (Z.of_nat n) (Qc_of_nat (3 * n))])
           (rev (seq 0 60)).

Definition df : DataFrame := preprocess raw.

(** Fifteen equal closes; sixteen rising closes. *)
Definition flat : Series := repeat (of_Z 100) 15.
Definition rising : Series := map (fun n => Fin (Qc_of_nat n)) (seq 1 16).
Definition mixed : Series := map Fin abc_close.

(** A first row without close, then a complete one. *)
Definition r1 : Row := mkRow (Some "ABC"%string) (Some 1%Z) NaN [].
Definition r2 : Row := mkRow (Some "ABC"%string) (Some 2%Z) (of_Z 100) [].


(** Sixteen falling closes. *)
Definition falling : Series := map (fun n => Fin (Qc_of_nat (20 - n))) (seq 1 16).

(** The two of them as a file, and that file with its indicators. *)
Definition small : DataFrame := [r1; r2].
Definition small_df : list IndicatorRow := add_indicators (preprocess small).

End Sample.

(* ================================================================= *)
(** * Properties *)

(* ----------------------------------------------------------------- *)
(** ** Rational arithmetic *)

Ltac to_Q :=
  unfold Qcle, Qclt, Qcdiv, Qcminus, Qcplus, Qcmult, Qcopp, Qcinv,
    Qc_of_nat, Qc_of_Z in *;
  cbn [this Q2Qc] in *; repeat rewrite Qred_correct in *.

Lemma Qc_eq_bool_refl (q : Qc) : Qc_eq_bool q q = true.
Proof. unfold Qc_eq_bool. destruct (Qc_eq_dec q q); congruence. Qed.

Lemma Qc_eq_bool_true (a b : Qc) : Qc_eq_bool a b = true <-> a = b.
Proof.
  split; [apply Qc_eq_bool_correct | intros ->; apply Qc_eq_bool_refl].
Qed.

Lemma Qc_eq_bool_false (a b : Qc) : Qc_eq_bool a b = false <-> a <> b.
Proof.
  unfold Qc_eq_bool. destruct (Qc_eq_dec a b); split; congruence.
Qed.

Lemma Qcltb_true (a b : Qc) : Qcltb a b = true <-> a < b.
Proof.
  unfold Qcltb. rewrite Qclt_alt. destruct (a ?= b); split; congruence.
Qed.

Lemma Qcltb_false (a b : Qc) : Qcltb a b = false <-> b <= a.
Proof.
  split; intros H.
  - apply Qcnot_lt_le. intros L. apply Qcltb_true in L. congruence.
  - destruct (Qcltb a b) eqn:E; [|reflexivity].
    apply Qcltb_true in E. exfalso. exact (Qcle_not_lt _ _ H E).
Qed.

Lemma Qcleb_true (a b : Qc) : Qcleb a b = true <-> a <= b.
Proof.
  unfold Qcleb. rewrite Qcle_alt. destruct (a ?= b); split; congruence.
Qed.

Lemma Qcleb_false (a b : Qc) : Qcleb a b = false <-> b < a.
Proof.
  split; intros H.
  - apply Qcnot_le_lt. intros L. apply Qcleb_true in L. congruence.
  - destruct (Qcleb a b) eqn:E; [|reflexivity].
    apply Qcleb_true in E. exfalso. exact (Qclt_not_le _ _ H E).
Qed.

Lemma Qc_pos_neq0 (a : Qc) : 0 < a -> a <> 0.
Proof. intros H E. rewrite E in H. discriminate H. Qed.

Lemma Qc_div_pos (a b : Qc) : 0 < a -> 0 < b -> 0 < a / b.
Proof.
  intros Ha Hb. to_Q.
  apply Qmult_lt_0_compat; [assumption|]. apply Qinv_lt_0_compat. assumption.
Qed.

Lemma Qc_div_le_self (a d : Qc) : 0 <= a -> 1 <= d -> a / d <= a.
Proof.
  intros Ha Hd.
  assert (Hd0 : 0 < d) by (to_Q; lra).
  apply Qcmult_lt_0_le_reg_r with d; [assumption|].
  replace (a / d * d) with a by (field; apply Qc_pos_neq0; assumption).
  to_Q. nra.
Qed.

Lemma Qc_of_nat_pos (n : nat) : (0 < n)%nat -> 0 < Qc_of_nat n.
Proof.
  intros H. to_Q. unfold Qlt. simpl. lia.
Qed.

(* ----------------------------------------------------------------- *)
(** ** float64 arithmetic on finite values *)

Lemma signbit_nonneg (a : Qc) : 0 <= a -> signbit (Fin a) = false.
Proof. intros H. simpl. apply Qcltb_false. assumption. Qed.

Lemma is_zero_Fin (a : Qc) : is_zero (Fin a) = true <-> a = 0.
Proof. simpl. apply Qc_eq_bool_true. Qed.

Lemma is_zero_pos (a : Qc) : 0 < a -> is_zero (Fin a) = false.
Proof. intros H. simpl. apply Qc_eq_bool_false, Qc_pos_neq0, H. Qed.

Lemma add_Fin (a b : Qc) : add (Fin a) (Fin b) = Fin (a + b).
Proof. reflexivity. Qed.

Lemma sub_Fin (a b : Qc) : sub (Fin a) (Fin b) = Fin (a - b).
Proof.
  unfold sub, neg. destruct (Qc_eq_bool b 0) eqn:E.
  - apply Qc_eq_bool_true in E. subst b. simpl. f_equal. ring.
  - reflexivity.
Qed.

(** Division by a positive finite value is the exact quotient. *)
Lemma div_Fin_pos (a b : Qc) : 0 < b -> div (Fin a) (Fin b) = Fin (a / b).
Proof.
  intros Hb. unfold div. cbn [isnan is_inf orb].
  rewrite (is_zero_pos b Hb).
  destruct (is_zero (Fin a)) eqn:Za; [|reflexivity].
  apply is_zero_Fin in Za. subst a.
  rewrite (signbit_nonneg 0) by apply Qcle_refl.
  rewrite (signbit_nonneg b) by (apply Qclt_le_weak; assumption).
  simpl. f_equal. apply Qc_is_canon. reflexivity.
Qed.

(** Multiplication by a positive finite value is the exact product. *)
Lemma mul_Fin_pos (a b : Qc) : 0 < a -> mul (Fin a) (Fin b) = Fin (a * b).
Proof.
  intros Ha. unfold mul. cbn [isnan is_inf orb].
  rewrite (is_zero_pos a Ha). cbn [orb].
  destruct (is_zero (Fin b)) eqn:Zb; [|reflexivity].
  apply is_zero_Fin in Zb. subst b.
  rewrite (signbit_nonneg 0) by apply Qcle_refl.
  rewrite (signbit_nonneg a) by (apply Qclt_le_weak; assumption).
  simpl. f_equal. ring.
Qed.

(* ----------------------------------------------------------------- *)
(** ** [compute_rsi], one index at a time *)

Lemma nth_error_zip_with f (a b : Series) (i : nat) (x y : float64) :
  nth_error a i = Some x -> nth_error b i = Some y ->
  nth_error (zip_with f a b) i = Some (f x y).
Proof.
  unfold zip_with. revert b i.
  induction a as [|a0 a IH]; intros [|b0 b] [|i] Ha Hb;
    simpl in *; try discriminate.
  - congruence.
  - apply IH; assumption.
Qed.

(** The value the function returns at an index where both rolling means
    exist: the last two lines of the function. *)
Lemma compute_rsi_at (series : Series) (i : nat) (g l : float64) :
  nth_error (rsi_gain 14 series) i = Some g ->
  nth_error (rsi_loss 14 series) i = Some l ->
  nth_error (rsi_rs 14 series) i = Some (div g l) /\
  nth_error (compute_rsi series) i = Some (rsi_of_rs (div g l)).
Proof.
  intros Hg Hl.
  assert (Hrs : nth_error (rsi_rs 14 series) i = Some (div g l))
    by (apply nth_error_zip_with; assumption).
  split; [assumption|].
  unfold compute_rsi, compute_rsi_period.
  rewrite nth_error_map, Hrs. reflexivity.
Qed.

Lemma rsi_of_rs_inf (rs : float64) :
  is_inf rs = true -> rsi_of_rs rs = of_Z 100.
Proof.
  destruct rs; try discriminate; intros _;
    unfold rsi_of_rs, of_Z; simpl; f_equal; apply Qc_is_canon; reflexivity.
Qed.

Lemma div_pos_zero (g : Qc) (l : float64) :
  0 < g -> is_zero l = true -> is_inf (div (Fin g) l) = true.
Proof.
  intros Hg Hl. unfold div.
  destruct l; try discriminate; cbn [isnan is_inf orb];
    rewrite ?Hl, (is_zero_pos g Hg); destruct (xorb _ _); reflexivity.
Qed.

Lemma div_zero_zero (g l : float64) :
  is_zero g = true -> is_zero l = true -> div g l = NaN.
Proof.
  intros Hg Hl. unfold div.
  destruct g; try discriminate; destruct l; try discriminate;
    cbn [isnan is_inf orb]; rewrite ?Hg, ?Hl; reflexivity.
Qed.

Lemma rsi_of_rs_pos (r : Qc) :
  0 < r ->
  exists v, rsi_of_rs (Fin r) = Fin v /\ 0 <= v /\ v <= Qc_of_Z 100.
Proof.
  intros Hr.
  assert (H1 : 1 <= 1 + r) by (to_Q; lra).
  assert (H2 : 0 < 1 + r) by (to_Q; lra).
  assert (H100 : 0 < Qc_of_Z 100) by reflexivity.
  exists (Qc_of_Z 100 - Qc_of_Z 100 / (1 + r)).
  split.
  - unfold rsi_of_rs, of_Z.
    change (Qc_of_Z 1) with 1.
    rewrite add_Fin, div_Fin_pos by assumption. apply sub_Fin.
  - pose proof (Qc_div_le_self _ _ (Qclt_le_weak _ _ H100) H1) as A.
    pose proof (Qc_div_pos _ _ H100 H2) as B.
    remember (Qc_of_Z 100 / (1 + r)) as x. clear Heqx.
    remember (Qc_of_Z 100) as c. clear Heqc.
    split; to_Q; lra.
Qed.

(** C9.  Wherever the 14-step mean gain and mean loss are both positive
    finite numbers, the RSI the function returns is a finite number between
    0 and 100. *)
Theorem rsi_bounded (series : Series) (i : nat) (g l : Qc) :
  nth_error (rsi_gain 14 series) i = Some (Fin g) ->
  nth_error (rsi_loss 14 series) i = Some (Fin l) ->
  0 < g -> 0 < l ->
  exists v, nth_error (compute_rsi series) i = Some (Fin v)
            /\ 0 <= v /\ v <= Qc_of_Z 100.
Proof.
  intros Hg Hl Gpos Lpos.
  destruct (compute_rsi_at _ _ _ _ Hg Hl) as [_ H].
  rewrite div_Fin_pos in H by assumption.
  destruct (rsi_of_rs_pos (g / l) (Qc_div_pos _ _ Gpos Lpos)) as (v & Ev & B).
  exists v. rewrite H, Ev. split; [reflexivity | exact B].
Qed.

(** C10.  Wherever the 14-step mean loss is a zero and the mean gain is
    positive, the quotient [rs] is infinite and the function returns exactly
    100. *)
Theorem rsi_zero_loss_is_100 (series : Series) (i : nat) (g : Qc) (l : float64) :
  nth_error (rsi_gain 14 series) i = Some (Fin g) ->
  nth_error (rsi_loss 14 series) i = Some l ->
  0 < g -> is_zero l = true ->
  (exists rs, nth_error (rsi_rs 14 series) i = Some rs /\ is_inf rs = true)
  /\ nth_error (compute_rsi series) i = Some (of_Z 100).
Proof.
  intros Hg Hl Gpos Lz.
  destruct (compute_rsi_at _ _ _ _ Hg Hl) as [Hrs H].
  pose proof (div_pos_zero g l Gpos Lz) as Hinf.
  split.
  - exists (div (Fin g) l). split; assumption.
  - rewrite H, (rsi_of_rs_inf _ Hinf). reflexivity.
Qed.

(** C4.  Wherever the 14-step mean gain and mean loss are both zero, the
    function returns not-a-number: not 100, not 0, no number at all. *)
Theorem rsi_flat_is_nan (series : Series) (i : nat) (g l : float64) :
  nth_error (rsi_gain 14 series) i = Some g ->
  nth_error (rsi_loss 14 series) i = Some l ->
  is_zero g = true -> is_zero l = true ->
  nth_error (compute_rsi series) i = Some NaN
  /\ (forall q, nth_error (compute_rsi series) i <> Some (Fin q))
  /\ nth_error (compute_rsi series) i <> Some NegZero.
Proof.
  intros Hg Hl Gz Lz.
  destruct (compute_rsi_at _ _ _ _ Hg Hl) as [_ H].
  rewrite (div_zero_zero _ _ Gz Lz) in H.
  change (rsi_of_rs NaN) with NaN in H.
  rewrite H. repeat split; intros; discriminate.
Qed.

(* ----------------------------------------------------------------- *)
(** ** Windows and rolling means *)

Section Windows.

Context {A : Type}.

Lemma window_length (w i : nat) (s : list A) :
  (i < length s)%nat -> length (window w i s) = Nat.min (S i) w.
Proof.
  intros H. unfold window. rewrite length_skipn, length_firstn. lia.
Qed.

Lemma window_map {B : Type} (f : A -> B) (w i : nat) (s : list A) :
  window w i (map f s) = map f (window w i s).
Proof.
  unfold window. rewrite firstn_map, skipn_map. reflexivity.
Qed.

(** A slice written with [skipn]/[firstn] lists the elements at the
    positions of the slice. *)
Lemma slice_nth (d : A) (s : list A) (lo n : nat) :
  (lo + n <= length s)%nat ->
  skipn lo (firstn (lo + n) s) = map (fun k => nth k s d) (seq lo n).
Proof.
  intros H. apply nth_error_ext. intros k.
  rewrite nth_error_skipn, nth_error_map.
  destruct (Nat.ltb_spec k n) as [L|L].
  - rewrite nth_error_firstn.
    replace (lo + k <? lo + n)%nat with true
      by (symmetry; apply Nat.ltb_lt; lia).
    rewrite nth_error_seq.
    replace (k <? n)%nat with true by (symmetry; apply Nat.ltb_lt; lia).
    simpl. apply nth_error_nth'. lia.
  - rewrite nth_error_firstn.
    replace (lo + k <? lo + n)%nat with false
      by (symmetry; apply Nat.ltb_ge; lia).
    rewrite nth_error_seq.
    replace (k <? n)%nat with false by (symmetry; apply Nat.ltb_ge; lia).
    reflexivity.
Qed.

(** A full window is the [w] positions ending at [i]. *)
Lemma window_full (d : A) (w i : nat) (s : list A) :
  (w <= S i)%nat -> (i < length s)%nat ->
  window w i s = map (fun k => nth k s d) (seq (S i - w) w).
Proof.
  intros Hw Hi. unfold window.
  replace (S i) with ((S i - w) + w)%nat at 2 by lia.
  apply slice_nth. lia.
Qed.

End Windows.

Lemma nth_error_rolling_mean (w i : nat) (s : Series) :
  (i < length s)%nat ->
  nth_error (rolling_mean w s) i = Some (mean_window w (window w i s)).
Proof.
  intros H. unfold rolling_mean.
  rewrite nth_error_map, nth_error_seq.
  replace (i <? length s)%nat with true by (symmetry; apply Nat.ltb_lt; lia).
  reflexivity.
Qed.

Lemma length_rolling_mean (w : nat) (s : Series) :
  length (rolling_mean w s) = length s.
Proof. unfold rolling_mean. rewrite length_map, length_seq. reflexivity. Qed.

Lemma observations_le (win : Series) :
  (length (filter observed (map prep win)) <= length win)%nat.
Proof.
  rewrite <- (length_map prep win). apply filter_length_le.
Qed.

Lemma mean_window_few (minp : nat) (win : Series) :
  (length (filter observed (map prep win)) < minp)%nat ->
  mean_window minp win = NaN.
Proof.
  intros H. unfold mean_window.
  replace (minp <=? _)%nat with false by (symmetry; apply Nat.leb_gt; lia).
  reflexivity.
Qed.

Lemma observations_Fin (qs : list Qc) :
  filter observed (map prep (map Fin qs)) = map Fin qs.
Proof.
  induction qs as [|q qs IH]; simpl; [reflexivity|]. rewrite IH. reflexivity.
Qed.

Lemma fold_left_add_Fin (qs : list Qc) (a : Qc) :
  fold_left add (map Fin qs) (Fin a) = Fin (a + Spec.qsum qs).
Proof.
  revert a. induction qs as [|q qs IH]; intros a; simpl.
  - f_equal. ring.
  - rewrite IH. f_equal. ring.
Qed.

Lemma fsum_Fin (qs : list Qc) : fsum (map Fin qs) = Fin (Spec.qsum qs).
Proof.
  unfold fsum. rewrite fold_left_add_Fin. f_equal. ring.
Qed.

(** The mean of a window of [w] finite values is their exact mean. *)
Lemma mean_window_Fin (w : nat) (qs : list Qc) :
  length qs = w -> (0 < w)%nat ->
  mean_window w (map Fin qs) = Fin (Spec.qsum qs / Qc_of_nat w).
Proof.
  intros L W. unfold mean_window.
  rewrite observations_Fin, length_map, L, Nat.leb_refl.
  replace (0 <? w)%nat with true by (symmetry; apply Nat.ltb_lt; lia).
  simpl. rewrite fsum_Fin. apply div_Fin_pos, Qc_of_nat_pos, W.
Qed.

(** The rolling mean of a series of finite values, index by index. *)
Lemma rolling_mean_Fin (w i : nat) (qs : list Qc) :
  (0 < w)%nat -> (i < length qs)%nat ->
  nth_error (rolling_mean w (map Fin qs)) i = Some (Spec.sma w qs i).
Proof.
  intros W I.
  rewrite nth_error_rolling_mean by (rewrite length_map; assumption).
  f_equal. unfold Spec.sma.
  destruct (Nat.ltb_spec i (w - 1)) as [Short|Full].
  - apply mean_window_few.
    pose proof (observations_le (window w i (map Fin qs))) as O.
    rewrite window_length in O by (rewrite length_map; assumption). lia.
  - rewrite window_map.
    rewrite (window_full 0 w i qs) by lia.
    rewrite mean_window_Fin by (rewrite ?length_map, ?length_seq; lia).
    unfold Spec.mean, Spec.at_.
    replace (i + 1 - w)%nat with (S i - w)%nat by lia. reflexivity.
Qed.

(* ----------------------------------------------------------------- *)
(** ** Grouped transforms act on each partition separately *)

Lemma skipn_cons_nth {A : Type} (d : A) (n : nat) (l : list A) :
  (n < length l)%nat -> skipn n l = nth n l d :: skipn (S n) l.
Proof.
  revert n. induction l as [|x l IH]; intros [|n] H; simpl in *; try lia.
  - reflexivity.
  - apply IH. lia.
Qed.

Lemma group_rows_app (k : string) (a b : DataFrame) :
  group_rows k (a ++ b) = group_rows k a ++ group_rows k b.
Proof. apply filter_app. Qed.

Lemma has_symbol_Some (k s : string) (r : Row) :
  Symbol r = Some s -> has_symbol k r = true -> s = k.
Proof.
  unfold has_symbol. intros -> H. apply String.eqb_eq. assumption.
Qed.

Lemma has_symbol_None (k : string) (r : Row) :
  Symbol r = None -> has_symbol k r = false.
Proof. unfold has_symbol. intros ->. reflexivity. Qed.

Section Transform.

Variable f : Series -> Series.
Hypothesis f_length : forall s, length (f s) = length s.

Lemma length_transform_from (df seen rest : DataFrame) :
  length (transform_from f df seen rest) = length rest.
Proof.
  revert seen. induction rest as [|r rest IH]; intros seen; simpl;
    [reflexivity | rewrite IH; reflexivity].
Qed.

Lemma length_transform (df : DataFrame) : length (transform f df) = length df.
Proof. apply length_transform_from. Qed.

Lemma select_transform_from (k : string) (df seen rest : DataFrame) :
  df = seen ++ rest ->
  select k rest (transform_from f df seen rest)
  = skipn (length (group_rows k seen)) (f (group_close k df)).
Proof.
  revert seen. induction rest as [|r rest IH]; intros seen E.
  - rewrite app_nil_r in E. subst seen. simpl.
    symmetry. apply skipn_all2.
    rewrite f_length. unfold group_close. rewrite length_map. lia.
  - unfold select in *. cbn [transform_from combine filter fst].
    specialize (IH (seen ++ [r])).
    rewrite <- app_assoc in IH. specialize (IH E).
    rewrite group_rows_app, length_app in IH. cbn [group_rows filter] in IH.
    destruct (has_symbol k r) eqn:Hk.
    + cbn [map snd length] in *. rewrite IH.
      destruct (Symbol r) as [s|] eqn:Hs;
        [|rewrite (has_symbol_None k r Hs) in Hk; discriminate].
      rewrite (has_symbol_Some k s r Hs Hk).
      replace (length (group_rows k seen) + 1)%nat
        with (S (length (group_rows k seen))) by lia.
      symmetry. apply skipn_cons_nth.
      rewrite f_length. unfold group_close. rewrite length_map, E.
      rewrite group_rows_app, length_app. cbn [group_rows filter].
      rewrite Hk. simpl. lia.
    + cbn [length] in IH. rewrite Nat.add_0_r in IH. exact IH.
Qed.

(** On the rows of a symbol, the transformed column is [f] of that
    symbol's closes. *)
Lemma select_transform (k : string) (df : DataFrame) :
  select k df (transform f df) = f (group_close k df).
Proof.
  unfold transform. rewrite (select_transform_from k df [] df eq_refl).
  reflexivity.
Qed.

End Transform.

Lemma length_zip_with f (a b : Series) :
  length a = length b -> length (zip_with f a b) = length a.
Proof.
  intros H. unfold zip_with. rewrite length_map, length_combine. lia.
Qed.

Lemma select_zip_with f (k : string) (rows : DataFrame) (a b : Series) :
  length a = length rows -> length b = length rows ->
  select k rows (zip_with f a b)
  = zip_with f (select k rows a) (select k rows b).
Proof.
  unfold select, zip_with. revert a b.
  induction rows as [|r rows IH]; intros [|x a] [|y b] La Lb;
    simpl in *; try discriminate; try reflexivity.
  destruct (has_symbol k r); simpl; rewrite IH by lia; reflexivity.
Qed.

Lemma partition_attach (k : string) (rows : DataFrame) (c1 c2 c3 c4 : Series) :
  length c1 = length rows -> length c2 = length rows ->
  length c3 = length rows -> length c4 = length rows ->
  partition k (attach rows c1 c2 c3 c4)
  = attach (group_rows k rows) (select k rows c1) (select k rows c2)
           (select k rows c3) (select k rows c4).
Proof.
  unfold partition, select, group_rows. revert c1 c2 c3 c4.
  induction rows as [|r rows IH];
    intros [|x1 c1] [|x2 c2] [|x3 c3] [|x4 c4] L1 L2 L3 L4;
    simpl in *; try discriminate; try reflexivity.
  destruct (has_symbol k r); simpl; rewrite IH by lia; reflexivity.
Qed.

Lemma length_diff (s : Series) : length (diff s) = length s.
Proof.
  destruct s as [|x t]; simpl; [reflexivity|].
  rewrite length_map, length_combine. simpl. lia.
Qed.

Lemma length_compute_rsi (s : Series) : length (compute_rsi s) = length s.
Proof.
  unfold compute_rsi, compute_rsi_period, rsi_rs, rsi_gain, rsi_loss,
    rsi_delta, clip_lower, clip_upper.
  rewrite length_map, length_zip_with;
    rewrite ?length_map, !length_rolling_mean, !length_map, length_diff;
    reflexivity.
Qed.

Lemma length_ewm_loop o n m st (vals : Series) :
  length (ewm_loop o n m st vals) = length vals.
Proof.
  revert st. induction vals as [|v vals IH]; intros st; simpl;
    [reflexivity | rewrite IH; reflexivity].
Qed.

Lemma length_ewm_mean (span : Z) (s : Series) :
  length (ewm_mean span s) = length s.
Proof.
  unfold ewm_mean. destruct s as [|x s]; simpl; [reflexivity|].
  rewrite length_ewm_loop, length_map. reflexivity.
Qed.

(** The rows of a symbol in the frame with indicators are the indicators
    computed on the rows of that symbol alone. *)
Lemma partition_add_indicators (k : string) (df : DataFrame) :
  partition k (add_indicators df) = compute_partition (group_rows k df).
Proof.
  unfold add_indicators, compute_partition, SMA_50_column, SMA_200_column,
    RSI_column, MACD_column, ema_12, ema_26.
  assert (L12 : length (transform (ewm_mean 12) df) = length df)
    by apply length_transform.
  assert (L26 : length (transform (ewm_mean 26) df) = length df)
    by apply length_transform.
  rewrite partition_attach.
  - rewrite select_zip_with by assumption.
    rewrite !select_transform
      by auto using length_rolling_mean, length_compute_rsi, length_ewm_mean.
    reflexivity.
  - apply length_transform.
  - apply length_transform.
  - apply length_transform.
  - rewrite length_zip_with; congruence.
Qed.

Lemma attach_columns (rows : DataFrame) (c1 c2 c3 c4 : Series) :
  length c1 = length rows -> length c2 = length rows ->
  length c3 = length rows -> length c4 = length rows ->
  let out := attach rows c1 c2 c3 c4 in
  map base out = rows /\ map SMA_50 out = c1 /\ map SMA_200 out = c2
  /\ map RSI out = c3 /\ map MACD out = c4.
Proof.
  revert c1 c2 c3 c4.
  induction rows as [|r rows IH];
    intros [|x1 c1] [|x2 c2] [|x3 c3] [|x4 c4] L1 L2 L3 L4;
    simpl in *; try discriminate; auto.
  destruct (IH c1 c2 c3 c4) as (B & S1 & S2 & S3 & S4); try lia.
  repeat split; f_equal; assumption.
Qed.

(** The columns of a symbol's rows, as functions of the symbol's closes. *)
Lemma partition_columns (k : string) (df : DataFrame) :
  let rows := partition k (add_indicators df) in
  let close := group_close k df in
  map base rows = group_rows k df
  /\ map SMA_50 rows = rolling_mean 50 close
  /\ map SMA_200 rows = rolling_mean 200 close
  /\ map RSI rows = compute_rsi close
  /\ map MACD rows = zip_with sub (ewm_mean 12 close) (ewm_mean 26 close).
Proof.
  cbv zeta. rewrite partition_add_indicators. unfold compute_partition.
  fold (group_close k df).
  assert (L : length (group_close k df) = length (group_rows k df))
    by apply length_map.
  apply attach_columns;
    rewrite ?length_zip_with;
    rewrite ?length_rolling_mean, ?length_compute_rsi, ?length_ewm_mean;
    auto.
Qed.

(* ----------------------------------------------------------------- *)
(** ** Simple moving averages *)

(* ----------------------------------------------------------------- *)
(** ** Exponential means and MACD *)

Lemma alpha_of_span_12 : alpha_of_span 12 = Spec.alpha 12.
Proof. apply Qc_is_canon. reflexivity. Qed.

Lemma alpha_of_span_26 : alpha_of_span 26 = Spec.alpha 26.
Proof. apply Qc_is_canon. reflexivity. Qed.

Lemma eqb_Fin (a b : Qc) : eqb (Fin a) (Fin b) = true <-> a = b.
Proof.
  unfold eqb. cbn [le val]. rewrite andb_true_iff, !Qcleb_true.
  split.
  - intros [H1 H2]. apply Qcle_antisym; assumption.
  - intros ->. split; apply Qcle_refl.
Qed.

Lemma skipn_cons_inv {A : Type} (d : A) (n : nat) (l : list A) (c : A) (cs : list A) :
  c :: cs = skipn n l -> nth n l d = c /\ cs = skipn (S n) l.
Proof.
  revert n. induction l as [|x l IH]; intros [|n] H; simpl in *;
    try discriminate.
  - inversion H. split; reflexivity.
  - apply IH. assumption.
Qed.

Section Ewm.

Variable a : Qc.
Hypothesis a_pos : 0 < a.
Hypothesis a_lt_1 : a < 1.

Let one_minus_a_pos : 0 < 1 * (1 - a).
Proof. to_Q. lra. Qed.

(** One iteration on finite values is one step of the seeded recursion. *)
Lemma ewm_step_Fin (w c : Qc) (n : nat) :
  ewm_step (Fin (1 - a)) (Fin a) (mk_ewm (Fin w) (of_Z 1) n) (Fin c)
  = mk_ewm (Fin (a * c + (1 - a) * w)) (of_Z 1) (n + 1).
Proof.
  unfold ewm_step. cbn [weighted old_wt nobs isnan negb].
  unfold of_Z. change (Qc_of_Z 1) with 1.
  rewrite !(mul_Fin_pos 1 (1 - a)) by reflexivity.
  destruct (eqb (Fin w) (Fin c)) eqn:E; cbn [negb].
  - apply eqb_Fin in E. subst c. f_equal. f_equal. ring.
  - rewrite (mul_Fin_pos _ w one_minus_a_pos), (mul_Fin_pos a c a_pos).
    rewrite !add_Fin.
    rewrite div_Fin_pos by (to_Q; lra).
    f_equal. f_equal. field. apply Qc_pos_neq0. to_Q. lra.
Qed.

Lemma ewm_loop_Fin (qs : list Qc) (cs : list Qc) :
  forall (j n : nat),
    (1 <= n)%nat -> cs = skipn (S j) qs ->
    ewm_loop (Fin (1 - a)) (Fin a) 1
             (mk_ewm (Fin (Spec.ema a qs j)) (of_Z 1) n) (map Fin cs)
    = map (fun i => Fin (Spec.ema a qs i)) (seq (S j) (length cs)).
Proof.
  induction cs as [|c cs IH]; intros j n Hn E; [reflexivity|].
  destruct (skipn_cons_inv 0 _ _ _ _ E) as [Hc Hcs].
  cbn [map ewm_loop length seq].
  rewrite ewm_step_Fin.
  unfold ewm_out at 1. cbn [nobs weighted].
  replace (1 <=? n + 1)%nat with true by (symmetry; apply Nat.leb_le; lia).
  assert (Es : a * c + (1 - a) * Spec.ema a qs j = Spec.ema a qs (S j)).
  { cbn [Spec.ema]. unfold Spec.at_. rewrite Hc. reflexivity. }
  rewrite Es. f_equal.
  apply IH; [lia | assumption].
Qed.

End Ewm.

Lemma map_prep_Fin (qs : list Qc) : map prep (map Fin qs) = map Fin qs.
Proof. rewrite map_map. reflexivity. Qed.

(** The exponentially weighted mean of finite closes is the seeded
    recursion of the specification, at every index. *)
Lemma ewm_mean_Fin (span : Z) (qs : list Qc) :
  0 < alpha_of_span span -> alpha_of_span span < 1 ->
  ewm_mean span (map Fin qs)
  = map (fun i => Fin (Spec.ema (alpha_of_span span) qs i))
        (seq 0 (length qs)).
Proof.
  intros P L. unfold ewm_mean. rewrite map_prep_Fin.
  destruct qs as [|q0 rest]; [reflexivity|].
  cbn [map isnan length seq]. f_equal.
  apply (ewm_loop_Fin _ P L (q0 :: rest) rest 0%nat 1%nat);
    [lia | reflexivity].
Qed.

Lemma nth_error_map_seq {B : Type} (f : nat -> B) (n i : nat) :
  (i < n)%nat -> nth_error (map f (seq 0 n)) i = Some (f i).
Proof.
  intros H. rewrite nth_error_map, nth_error_seq.
  replace (i <? n)%nat with true by (symmetry; apply Nat.ltb_lt; lia).
  reflexivity.
Qed.

(* ----------------------------------------------------------------- *)
(** ** [compute_rsi] against the formulas of the specification *)

Lemma nth_error_Fin (qs : list Qc) (k : nat) :
  (k < length qs)%nat ->
  nth_error (map Fin qs) k = Some (Fin (Spec.at_ qs k)).
Proof.
  intros H. rewrite nth_error_map.
  rewrite (nth_error_nth' qs 0 H). reflexivity.
Qed.

Lemma nth_error_diff_0 (s : Series) :
  s <> [] -> nth_error (diff s) 0 = Some NaN.
Proof. destruct s; [congruence | reflexivity]. Qed.

Lemma nth_error_diff_S (s : Series) (j : nat) (x y : float64) :
  nth_error s (S j) = Some x -> nth_error s j = Some y ->
  nth_error (diff s) (S j) = Some (sub x y).
Proof.
  destruct s as [|s0 t]; [discriminate|]. intros Hx Hy.
  exact (nth_error_zip_with sub t (s0 :: t) j x y Hx Hy).
Qed.

Lemma nth_error_diff_Fin (qs : list Qc) (k : nat) :
  (1 <= k < length qs)%nat ->
  nth_error (diff (map Fin qs)) k = Some (Fin (Spec.d qs k)).
Proof.
  intros [K1 K2]. destruct k as [|j]; [lia|].
  rewrite (nth_error_diff_S _ j (Fin (Spec.at_ qs (S j))) (Fin (Spec.at_ qs j)))
    by (apply nth_error_Fin; lia).
  rewrite sub_Fin. unfold Spec.d. simpl. rewrite Nat.sub_0_r. reflexivity.
Qed.

Lemma clip_lower_Fin (x : Qc) :
  (if isnan (Fin x) || le (of_Z 0) (Fin x) then Fin x else of_Z 0)
  = Fin (Spec.Qcmax x 0).
Proof.
  unfold of_Z. cbn [isnan orb le val]. change (Qc_of_Z 0) with 0.
  unfold Spec.Qcmax.
  destruct (Qcleb 0 x) eqn:A, (Qcleb x 0) eqn:B; try reflexivity.
  - apply Qcleb_true in A, B. f_equal. apply Qcle_antisym; assumption.
  - apply Qcleb_false in A, B. exfalso.
    exact (Qclt_not_le _ _ A (Qclt_le_weak _ _ B)).
Qed.

Lemma clip_upper_Fin (x : Qc) :
  (if isnan (Fin x) || le (Fin x) (of_Z 0) then Fin x else of_Z 0)
  = Fin (- Spec.Qcmax (- x) 0).
Proof.
  unfold of_Z. cbn [isnan orb le val]. change (Qc_of_Z 0) with 0.
  unfold Spec.Qcmax.
  destruct (Qcleb x 0) eqn:A, (Qcleb (- x) 0) eqn:B;
    try apply Qcleb_true in A; try apply Qcleb_false in A;
    try apply Qcleb_true in B; try apply Qcleb_false in B;
    f_equal; apply Qc_is_canon; to_Q; lra.
Qed.

Lemma qsum_opp {B : Type} (f : B -> Qc) (l : list B) :
  Spec.qsum (map (fun k => - f k) l) = - Spec.qsum (map f l).
Proof.
  induction l as [|x l IH]; simpl.
  - apply Qc_is_canon. reflexivity.
  - rewrite IH. ring.
Qed.

Lemma mean_opp (f : nat -> Qc) (lo n : nat) :
  (0 < n)%nat ->
  Spec.mean (fun k => - f k) lo n = - Spec.mean f lo n.
Proof.
  intros H. unfold Spec.mean. rewrite qsum_opp. field.
  apply Qc_pos_neq0, Qc_of_nat_pos, H.
Qed.

(** Before [w] values exist past the undefined head, the rolling mean is
    undefined. *)
Lemma rolling_mean_head (w i : nat) (s : Series) :
  (i < length s)%nat -> (i < w)%nat -> nth_error s 0 = Some NaN ->
  nth_error (rolling_mean w s) i = Some NaN.
Proof.
  intros Hi Hw H0. rewrite nth_error_rolling_mean by assumption.
  f_equal. apply mean_window_few.
  destruct s as [|x t]; [discriminate|]. injection H0 as ->.
  unfold window. replace (S i - w)%nat with 0%nat by lia.
  cbn [skipn firstn map prep is_inf filter observed isnan negb].
  pose proof (observations_le (firstn i t)) as O.
  rewrite length_firstn in O. fold observed. lia.
Qed.

(** Past the head, over finite values, it is the exact mean of the
    trailing [w] values. *)
Lemma rolling_mean_tail (w i : nat) (s : Series) (x : nat -> Qc) :
  (0 < w)%nat -> (w <= i)%nat -> (i < length s)%nat ->
  (forall k, (1 <= k < length s)%nat -> nth_error s k = Some (Fin (x k))) ->
  nth_error (rolling_mean w s) i = Some (Fin (Spec.mean x (S i - w) w)).
Proof.
  intros W Hw Hi Hx. rewrite nth_error_rolling_mean by assumption.
  f_equal. rewrite (window_full NaN) by lia.
  rewrite (map_ext_in _ (fun k => Fin (x k))).
  - rewrite <- map_map.
    rewrite mean_window_Fin by (rewrite ?length_map, ?length_seq; lia).
    reflexivity.
  - intros k Hk. apply in_seq in Hk.
    apply nth_error_nth. apply Hx. lia.
Qed.

Lemma div_nonzero_zero (g : Qc) (l : float64) :
  g <> 0 -> is_zero l = true -> is_inf (div (Fin g) l) = true.
Proof.
  intros Hg Hl. unfold div.
  assert (Zg : is_zero (Fin g) = false)
    by (simpl; apply Qc_eq_bool_false; assumption).
  destruct l; try discriminate; cbn [isnan is_inf orb];
    rewrite ?Hl, Zg; destruct (xorb _ _); reflexivity.
Qed.

(** Negating the mean of the negative parts or averaging the losses: the
    sign of a zero differs, the RSI does not. *)
Lemma rsi_of_rs_neg_loss (g L : Qc) :
  rsi_of_rs (div (Fin g) (neg (Fin (- L))))
  = rsi_of_rs (div (Fin g) (Fin L)).
Proof.
  destruct (Qc_eq_dec L 0) as [ZL|NZ].
  - subst L.
    assert (Z1 : is_zero (neg (Fin (- 0))) = true) by reflexivity.
    assert (Z2 : is_zero (Fin 0) = true) by reflexivity.
    destruct (Qc_eq_dec g 0) as [Zg|Ng].
    + subst g. rewrite !div_zero_zero by reflexivity. reflexivity.
    + rewrite !rsi_of_rs_inf by (apply div_nonzero_zero; assumption).
      reflexivity.
  - assert (N : - L <> 0).
    { intros E. apply NZ. rewrite <- (Qcopp_involutive L), E.
      apply Qc_is_canon. reflexivity. }
    unfold neg. apply Qc_eq_bool_false in N. rewrite N.
    rewrite Qcopp_involutive. reflexivity.
Qed.

Lemma length_clip_lower lo (s : Series) : length (clip_lower lo s) = length s.
Proof. apply length_map. Qed.
Lemma length_clip_upper hi (s : Series) : length (clip_upper hi s) = length s.
Proof. apply length_map. Qed.

(** [compute_rsi] on finite closes, index by index. *)
Lemma compute_rsi_Fin (qs : list Qc) (i : nat) :
  (i < length qs)%nat ->
  nth_error (compute_rsi (map Fin qs)) i = Some (Spec.rsi qs i).
Proof.
  intros Hi.
  assert (Ld : length (diff (map Fin qs)) = length qs)
    by (rewrite length_diff; apply length_map).
  assert (H0 : nth_error (diff (map Fin qs)) 0 = Some NaN).
  { apply nth_error_diff_0. destruct qs; [simpl in Hi; lia | discriminate]. }
  unfold Spec.rsi.
  destruct (Nat.ltb_spec i 14) as [Short|Full].
  - assert (G : nth_error (rsi_gain 14 (map Fin qs)) i = Some NaN).
    { unfold rsi_gain, rsi_delta. apply rolling_mean_head;
        [rewrite length_clip_lower; lia | assumption |].
      unfold clip_lower. rewrite nth_error_map, H0. reflexivity. }
    assert (L : nth_error (rsi_loss 14 (map Fin qs)) i = Some NaN).
    { unfold rsi_loss, rsi_delta. rewrite nth_error_map.
      rewrite rolling_mean_head;
        [reflexivity | rewrite length_clip_upper; lia | assumption |].
      unfold clip_upper. rewrite nth_error_map, H0. reflexivity. }
    destruct (compute_rsi_at _ _ _ _ G L) as [_ H]. exact H.
  - assert (G : nth_error (rsi_gain 14 (map Fin qs)) i
                = Some (Fin (Spec.avg_gain qs i))).
    { unfold rsi_gain, rsi_delta, Spec.avg_gain.
      apply (rolling_mean_tail 14 i _ (Spec.gain qs));
        [lia | assumption | rewrite length_clip_lower; lia |].
      intros k Hk. rewrite length_clip_lower, Ld in Hk.
      unfold clip_lower. rewrite nth_error_map, nth_error_diff_Fin by lia.
      cbn [option_map]. rewrite clip_lower_Fin. reflexivity. }
    assert (L : nth_error (rsi_loss 14 (map Fin qs)) i
                = Some (neg (Fin (- Spec.avg_loss qs i)))).
    { unfold rsi_loss, rsi_delta, Spec.avg_loss. rewrite nth_error_map.
      rewrite (rolling_mean_tail 14 i _ (fun k => - Spec.loss qs k));
        [| lia | assumption | rewrite length_clip_upper; lia |].
      - cbn [option_map]. rewrite mean_opp by lia. reflexivity.
      - intros k Hk. rewrite length_clip_upper, Ld in Hk.
        unfold clip_upper. rewrite nth_error_map, nth_error_diff_Fin by lia.
        cbn [option_map]. rewrite clip_upper_Fin. reflexivity. }
    destruct (compute_rsi_at _ _ _ _ G L) as [_ H]. rewrite H.
    rewrite rsi_of_rs_neg_loss. reflexivity.
Qed.

Lemma qsum_zero {B : Type} (f : B -> Qc) (l : list B) :
  (forall k, In k l -> f k = 0) -> Spec.qsum (map f l) = 0.
Proof.
  induction l as [|x l IH]; intros H; simpl; [reflexivity|].
  rewrite (H x) by (left; reflexivity).
  rewrite IH by (intros k Hk; apply H; right; assumption).
  apply Qc_is_canon. reflexivity.
Qed.

Lemma mean_zero (f : nat -> Qc) (lo n : nat) :
  (forall k, (lo <= k < lo + n)%nat -> f k = 0) -> Spec.mean f lo n = 0.
Proof.
  intros H. unfold Spec.mean. rewrite qsum_zero.
  - unfold Qcdiv. apply Qcmult_0_l.
  - intros k Hk. apply in_seq in Hk. apply H. lia.
Qed.

(** Fifteen equal closes in a row end in an undefined RSI, whatever came
    before them. *)
Lemma rsi_constant_run (qs : list Qc) (i : nat) :
  (14 <= i < length qs)%nat ->
  (forall k, (i - 14 <= k <= i)%nat -> Spec.at_ qs k = Spec.at_ qs i) ->
  nth_error (compute_rsi (map Fin qs)) i = Some NaN.
Proof.
  intros [Lo Hi] Run. rewrite compute_rsi_Fin by assumption.
  unfold Spec.rsi.
  replace (i <? 14)%nat with false by (symmetry; apply Nat.ltb_ge; lia).
  assert (D : forall k, (i - 13 <= k < i - 13 + 14)%nat -> Spec.d qs k = 0).
  { intros k Hk. unfold Spec.d.
    rewrite (Run k), (Run (k - 1)%nat) by lia. apply Qcplus_opp_r. }
  assert (G : Spec.avg_gain qs i = 0).
  { apply mean_zero. intros k Hk. unfold Spec.gain. rewrite (D k Hk).
    reflexivity. }
  assert (L : Spec.avg_loss qs i = 0).
  { apply mean_zero. intros k Hk. unfold Spec.loss. rewrite (D k Hk).
    reflexivity. }
  unfold Spec.rs. rewrite G, L. reflexivity.
Qed.

(* ----------------------------------------------------------------- *)
(** ** The sort order *)

Section Comparison.

Context {A : Type} (cmp : A -> A -> comparison).
Hypothesis cmp_eq : forall x y, cmp x y = Eq <-> x = y.
Hypothesis cmp_antisym : forall x y, cmp y x = CompOpp (cmp x y).
Hypothesis cmp_trans :
  forall x y z, cmp x y = Lt -> cmp y z = Lt -> cmp x z = Lt.

Lemma opt_compare_eq (a b : option A) : opt_compare cmp a b = Eq <-> a = b.
Proof.
  destruct a as [x|], b as [y|]; simpl; try (split; congruence).
  rewrite cmp_eq. split; congruence.
Qed.

Lemma opt_compare_antisym (a b : option A) :
  opt_compare cmp b a = CompOpp (opt_compare cmp a b).
Proof.
  destruct a as [x|], b as [y|]; simpl; auto.
Qed.

Lemma opt_compare_trans (a b c : option A) :
  opt_compare cmp a b = Lt -> opt_compare cmp b c = Lt ->
  opt_compare cmp a c = Lt.
Proof.
  destruct a as [x|], b as [y|], c as [z|]; simpl; try congruence.
  apply cmp_trans.
Qed.

End Comparison.

Lemma string_lt_irrefl (x : string) : String_as_OT.compare x x <> Lt.
Proof.
  exact (@StrictOrder_Irreflexive _ _ String_as_OT.lt_strorder x).
Qed.

Lemma string_compare_trans (x y z : string) :
  String_as_OT.compare x y = Lt -> String_as_OT.compare y z = Lt ->
  String_as_OT.compare x z = Lt.
Proof.
  exact (@StrictOrder_Transitive _ _ String_as_OT.lt_strorder x y z).
Qed.

Lemma string_compare_eq (x y : string) : String_as_OT.compare x y = Eq <-> x = y.
Proof.
  split.
  - destruct (String_as_OT.compare_spec x y) as [E|L|G];
      [intros _; exact E | discriminate | discriminate].
  - intros ->. destruct (String_as_OT.compare_spec y y) as [_|H|H];
      [reflexivity | | ]; exfalso; exact (string_lt_irrefl y H).
Qed.

Lemma string_compare_antisym (x y : string) :
  String_as_OT.compare y x = CompOpp (String_as_OT.compare x y).
Proof.
  destruct (String_as_OT.compare_spec x y) as [E|L|G];
    destruct (String_as_OT.compare_spec y x) as [E'|L'|G'];
    simpl; try reflexivity; exfalso;
    unfold String_as_OT.eq, String_as_OT.lt in *; subst;
    try (eapply string_lt_irrefl; eassumption);
    eapply string_lt_irrefl; eapply string_compare_trans; eassumption.
Qed.

Lemma Z_compare_trans (x y z : Z) :
  (x ?= y)%Z = Lt -> (y ?= z)%Z = Lt -> (x ?= z)%Z = Lt.
Proof. rewrite !Z.compare_lt_iff. lia. Qed.

Lemma key_compare_antisym (a b : Row) :
  key_compare b a = CompOpp (key_compare a b).
Proof.
  unfold key_compare.
  rewrite (opt_compare_antisym _ string_compare_antisym (Symbol a) (Symbol b)).
  rewrite (opt_compare_antisym _ Z.compare_antisym (Date a) (Date b)).
  destruct (opt_compare String_as_OT.compare (Symbol a) (Symbol b));
    reflexivity.
Qed.

Lemma key_compare_trans (a b c : Row) :
  key_compare a b = Lt -> key_compare b c = Lt -> key_compare a c = Lt.
Proof.
  unfold key_compare.
  destruct (opt_compare String_as_OT.compare (Symbol a) (Symbol b)) eqn:Sab;
    try discriminate;
    destruct (opt_compare String_as_OT.compare (Symbol b) (Symbol c)) eqn:Sbc;
    try discriminate; intros Dab Dbc.
  - apply (opt_compare_eq _ string_compare_eq) in Sab, Sbc.
    rewrite Sab, Sbc.
    rewrite (proj2 (opt_compare_eq _ string_compare_eq _ _) eq_refl).
    exact (opt_compare_trans _ Z_compare_trans _ _ _ Dab Dbc).
  - apply (opt_compare_eq _ string_compare_eq) in Sab.
    rewrite Sab, Sbc. reflexivity.
  - apply (opt_compare_eq _ string_compare_eq) in Sbc.
    rewrite <- Sbc, Sab. reflexivity.
  - rewrite (opt_compare_trans _ string_compare_trans _ _ _ Sab Sbc).
    reflexivity.
Qed.

(** Rows with equal keys compare alike with every other row. *)
Lemma key_compare_Eq (a b c : Row) :
  key_compare a b = Eq -> key_compare a c = key_compare b c.
Proof.
  unfold key_compare.
  destruct (opt_compare String_as_OT.compare (Symbol a) (Symbol b)) eqn:Sab;
    try discriminate.
  intros Dab.
  apply (opt_compare_eq _ string_compare_eq) in Sab.
  apply (opt_compare_eq _ Z.compare_eq_iff) in Dab.
  rewrite Sab, Dab. reflexivity.
Qed.

Lemma key_le_total (a b : Row) : key_le a b = false -> key_le b a = true.
Proof.
  unfold key_le. rewrite (key_compare_antisym a b).
  destruct (key_compare a b); simpl; congruence.
Qed.

Lemma key_le_trans (a b c : Row) :
  key_le a b = true -> key_le b c = true -> key_le a c = true.
Proof.
  unfold key_le.
  destruct (key_compare a b) eqn:Hab; try discriminate; intros _.
  - rewrite (key_compare_Eq a b c Hab). auto.
  - destruct (key_compare b c) eqn:Hbc; try discriminate; intros _.
    + assert (Hcb : key_compare c b = Eq)
        by (rewrite key_compare_antisym, Hbc; reflexivity).
      pose proof (key_compare_Eq c b a Hcb) as E.
      rewrite (key_compare_antisym a b), Hab in E. simpl in E.
      rewrite (key_compare_antisym c a), E. reflexivity.
    + rewrite (key_compare_trans a b c Hab Hbc). reflexivity.
Qed.

(* ----------------------------------------------------------------- *)
(** ** The stable sort commutes with taking a partition *)

Lemma In_insert_row (x r : Row) (l : DataFrame) :
  In x (insert_row r l) <-> x = r \/ In x l.
Proof.
  induction l as [|y l IH]; simpl.
  - intuition congruence.
  - destruct (key_le r y); simpl; rewrite ?IH; intuition congruence.
Qed.

Lemma In_sort_values (x : Row) (l : DataFrame) :
  In x (sort_values l) <-> In x l.
Proof.
  induction l as [|y l IH]; simpl; [reflexivity|].
  rewrite In_insert_row, IH. intuition congruence.
Qed.

Lemma insert_row_sorted (r : Row) (l : DataFrame) :
  key_sorted l -> key_sorted (insert_row r l).
Proof.
  unfold key_sorted. induction 1 as [|y l Sl IH Fy]; simpl.
  - constructor; constructor.
  - destruct (key_le r y) eqn:E.
    + constructor; [constructor; assumption|].
      constructor; [assumption|].
      rewrite Forall_forall in *. intros z Hz.
      apply key_le_trans with y; auto.
    + constructor; [assumption|].
      rewrite Forall_forall in *. intros z Hz.
      apply In_insert_row in Hz. destruct Hz as [->|Hz]; auto.
      apply key_le_total. assumption.
Qed.

Lemma sort_values_sorted (l : DataFrame) : key_sorted (sort_values l).
Proof.
  induction l as [|r l IH]; simpl.
  - constructor.
  - apply insert_row_sorted. assumption.
Qed.

Lemma insert_row_front (r : Row) (l : DataFrame) :
  Forall (fun z => key_le r z = true) l -> insert_row r l = r :: l.
Proof.
  destruct 1 as [|y l Hy _]; simpl; [reflexivity|].
  rewrite Hy. reflexivity.
Qed.

Lemma filter_insert_row (p : Row -> bool) (r : Row) (l : DataFrame) :
  key_sorted l ->
  filter p (insert_row r l)
  = if p r then insert_row r (filter p l) else filter p l.
Proof.
  unfold key_sorted. induction 1 as [|y l Sl IH Fy].
  - simpl. destruct (p r); reflexivity.
  - cbn [insert_row]. destruct (key_le r y) eqn:E.
    + cbn [filter]. destruct (p r) eqn:Pr; [|reflexivity].
      symmetry. apply insert_row_front.
      rewrite Forall_forall in *. intros z Hz.
      assert (Hz' : In z (y :: l)).
      { change (In z (filter p (y :: l))) in Hz.
        apply filter_In in Hz. tauto. }
      destruct Hz' as [<-|Hz']; [assumption|].
      apply key_le_trans with y; auto.
    + cbn [filter]. rewrite IH.
      destruct (p y) eqn:Py, (p r) eqn:Pr; cbn [insert_row];
        rewrite ?E; reflexivity.
Qed.

Lemma filter_sort_values (p : Row -> bool) (l : DataFrame) :
  filter p (sort_values l) = sort_values (filter p l).
Proof.
  induction l as [|r l IH]; [reflexivity|].
  cbn [sort_values filter].
  rewrite filter_insert_row by apply sort_values_sorted.
  rewrite IH. destruct (p r); reflexivity.
Qed.

(** C5.  The indicator rows of a symbol are a function of the records of
    that symbol alone: two tables with the same subsequence of S-records
    give, once sorted, the same indicator rows for S; in particular records
    of other symbols inserted between S-records change nothing for S. *)
Theorem indicators_per_symbol (k : string) :
  (forall t1 t2 : DataFrame,
      group_rows k t1 = group_rows k t2 ->
      partition k (add_indicators (sort_values t1))
      = partition k (add_indicators (sort_values t2)))
  /\ (forall before others after : DataFrame,
         Forall (fun r => has_symbol k r = false) others ->
         partition k (add_indicators (sort_values (before ++ others ++ after)))
         = partition k (add_indicators (sort_values (before ++ after)))).
Proof.
  assert (Main : forall t1 t2 : DataFrame,
             group_rows k t1 = group_rows k t2 ->
             partition k (add_indicators (sort_values t1))
             = partition k (add_indicators (sort_values t2))).
  { intros t1 t2 H. rewrite !partition_add_indicators.
    unfold group_rows in *. rewrite !filter_sort_values, H. reflexivity. }
  split; [exact Main|].
  intros before others after H. apply Main.
  rewrite !group_rows_app.
  replace (group_rows k others) with (@nil Row); [reflexivity|].
  symmetry. unfold group_rows.
  induction H as [|r others Hr _ IH]; simpl; [reflexivity|].
  rewrite Hr. exact IH.
Qed.

(* ----------------------------------------------------------------- *)
(** ** The filter *)

Lemma isin_In (s : option string) (selected_symbols : list string) :
  isin s selected_symbols = true
  <-> exists x, s = Some x /\ In x selected_symbols.
Proof.
  destruct s as [x|]; simpl.
  - rewrite existsb_exists. split.
    + intros (y & Hy & E). apply String.eqb_eq in E. subst y. eauto.
    + intros (y & [= <-] & Hy). exists x. split; [assumption|].
      apply String.eqb_refl.
  - split; [discriminate | intros (x & E & _); discriminate].
Qed.

Lemma keep_row_spec (selected_symbols : list string) (start_date end_date : Z)
      (r : IndicatorRow) :
  keep_row selected_symbols start_date end_date r = true
  <-> exists s d, Symbol (base r) = Some s /\ In s selected_symbols
                  /\ Date (base r) = Some d
                  /\ (start_date <= d)%Z /\ (d <= end_date)%Z.
Proof.
  unfold keep_row, date_ge, date_le.
  rewrite !andb_true_iff, isin_In.
  destruct (Date (base r)) as [d|].
  - rewrite !Z.leb_le. split.
    + intros [[(s & Hs & Hin) H1] H2]. exists s, d. auto.
    + intros (s & d' & Hs & Hin & [= <-] & H1 & H2). eauto.
  - split.
    + intros [[_ H] _]. discriminate.
    + intros (s & d & _ & _ & H & _). discriminate.
Qed.

(** C6.  The filter keeps, in table order, exactly the rows whose symbol is
    selected and whose date lies between the two bounds, bounds included;
    with nothing to keep the view is empty and the run still completes;
    the frame itself is left as it was. *)
Theorem filter_exact (df : list IndicatorRow) (selected_symbols : list string)
        (start_date end_date : Z) :
  let f := fun t => filtered_df t selected_symbols start_date end_date in
  let selected := fun r =>
    exists s d, Symbol (base r) = Some s /\ In s selected_symbols
                /\ Date (base r) = Some d
                /\ (start_date <= d)%Z /\ (d <= end_date)%Z in
  (forall r, In r (f df) <-> In r df /\ selected r)
  /\ (forall r, selected r -> f [r] = [r])
  /\ (forall r, ~ selected r -> f [r] = [])
  /\ (forall t1 t2, f (t1 ++ t2) = f t1 ++ f t2)
  /\ ((forall r, In r df -> ~ selected r) -> f df = [])
  /\ (selected_symbols = [] -> f df = [])
  /\ ((end_date < start_date)%Z -> f df = [])
  /\ (forall raw, add_indicators (preprocess raw) <> [] ->
        exists log,
          main (Some raw) None selected_symbols start_date end_date
          = (log, Ok (mkDashboard (add_indicators (preprocess raw))
                                  (f (add_indicators (preprocess raw)))))).
Proof.
  cbv zeta.
  assert (None_kept : forall t,
             (forall r, In r t ->
                        keep_row selected_symbols start_date end_date r = false) ->
             filtered_df t selected_symbols start_date end_date = []).
  { intros t H. unfold filtered_df. induction t as [|r t IH];
      [reflexivity|]. simpl. rewrite H by (left; reflexivity).
    apply IH. intros r' Hr'. apply H. right. assumption. }
  assert (Not_kept : forall r,
             ~ (exists s d, Symbol (base r) = Some s /\ In s selected_symbols
                            /\ Date (base r) = Some d
                            /\ (start_date <= d)%Z /\ (d <= end_date)%Z) ->
             keep_row selected_symbols start_date end_date r = false).
  { intros r H.
    destruct (keep_row selected_symbols start_date end_date r) eqn:E;
      [|reflexivity].
    apply keep_row_spec in E. contradiction. }
  split; [|split; [|split; [|split; [|split; [|split; [|split]]]]]].
  - intros r. unfold filtered_df. rewrite filter_In, keep_row_spec.
    reflexivity.
  - intros r H. unfold filtered_df. simpl.
    rewrite (proj2 (keep_row_spec _ _ _ r) H). reflexivity.
  - intros r H. unfold filtered_df. simpl.
    rewrite (Not_kept r H). reflexivity.
  - intros t1 t2. apply filter_app.
  - intros H. apply None_kept. intros r Hr. apply Not_kept, H, Hr.
  - intros ->. apply None_kept. intros r _. apply Not_kept.
    intros (s & d & _ & [] & _).
  - intros H. apply None_kept. intros r _. apply Not_kept.
    intros (s & d & _ & _ & _ & H1 & H2). lia.
  - intros raw H. unfold main, load. simpl.
    destruct (add_indicators (preprocess raw)) as [|r t] eqn:E;
      [congruence|]. simpl. eexists. reflexivity.
Qed.

(* ----------------------------------------------------------------- *)
(** ** Missing input *)

(** C8.  With no uploaded file and no local default file, the run shows
    one warning and stops: no stage after loading is entered. *)
Theorem missing_input_halts (selected_symbols : list string)
        (start_date end_date : Z) :
  main None None selected_symbols start_date end_date
  = ([Shown (Warning "⚠️ Please upload a CSV file to continue.")], Halted)
  /\ forall s, ~ In (Entered s)
                 (fst (main None None selected_symbols start_date end_date)).
Proof.
  split; [reflexivity|].
  intros s [H|[]]. discriminate H.
Qed.

(* ----------------------------------------------------------------- *)
(** ** Preprocessing *)

Lemma length_ffill_from (prev : Row) (rows : DataFrame) :
  length (ffill_from prev rows) = length rows.
Proof.
  revert prev. induction rows as [|r rows IH]; intros prev; simpl;
    [reflexivity | rewrite IH; reflexivity].
Qed.

Lemma length_ffill (df : DataFrame) : length (ffill df) = length df.
Proof.
  destruct df as [|r rows]; simpl; [reflexivity|].
  rewrite length_ffill_from. reflexivity.
Qed.

Lemma nth_ffill_from (d prev : Row) (rows : DataFrame) (j : nat) :
  (j < length rows)%nat ->
  nth j (ffill_from prev rows) d
  = fill_row (nth j (prev :: ffill_from prev rows) d) (nth j rows d).
Proof.
  revert prev j. induction rows as [|r rows IH]; intros prev [|j] H;
    simpl in *; try lia.
  - reflexivity.
  - apply IH. lia.
Qed.

(** Each filled row is the row of the file filled from the filled row
    above it. *)
Lemma nth_ffill_S (d : Row) (df : DataFrame) (j : nat) :
  (S j < length df)%nat ->
  nth (S j) (ffill df) d = fill_row (nth j (ffill df) d) (nth (S j) df d).
Proof.
  destruct df as [|r rows]; simpl; intros H; [lia|].
  apply nth_ffill_from. lia.
Qed.

Lemma nth_ffill_0 (d : Row) (df : DataFrame) :
  nth 0 (ffill df) d = nth 0 df d.
Proof. destruct df; reflexivity. Qed.

Lemma length_fill_cells (p c : list cell) :
  length (fill_cells p c) = length c.
Proof.
  revert c. induction p as [|x p IH]; intros [|y c]; simpl; auto.
Qed.

Lemma nth_fill_cells (p c : list cell) (n : nat) (d : cell) :
  length p = length c -> (n < length c)%nat ->
  nth n (fill_cells p c) d = fill_cell (nth n p d) (nth n c d).
Proof.
  revert c n. induction p as [|x p IH]; intros [|y c] [|n] L H;
    simpl in *; try lia; try reflexivity.
  apply IH; lia.
Qed.

(** Forward fill, column by column, over the whole frame in file order. *)
Lemma ffill_columns (d : Row) (df : DataFrame) (i : nat) :
  (i < length df)%nat ->
  let row := nth i (ffill df) d in
  Symbol row = Spec.last_valid is_none (fun j => Symbol (nth j df d)) i
  /\ Date row = Spec.last_valid is_none (fun j => Date (nth j df d)) i
  /\ Close row = Spec.last_valid isnan (fun j => Close (nth j df d)) i.
Proof.
  cbv zeta. induction i as [|j IH]; intros H.
  - rewrite nth_ffill_0. simpl. auto.
  - destruct IH as (IS & ID & IC); [lia|].
    rewrite nth_ffill_S by assumption.
    cbn [fill_row Symbol Date Close Spec.last_valid].
    rewrite <- IS, <- ID, <- IC.
    unfold fill_opt, fill_float.
    destruct (Symbol (nth (S j) df d)), (Date (nth (S j) df d));
      simpl; auto.
Qed.

Lemma ffill_other_columns (d : Row) (df : DataFrame) (w : nat) :
  Forall (fun r => length (Other r) = w) df ->
  forall i, (i < length df)%nat ->
       length (Other (nth i (ffill df) d)) = w
       /\ forall c, (c < w)%nat ->
            nth c (Other (nth i (ffill df) d)) (Num NaN)
            = Spec.last_valid cell_isna
                (fun j => nth c (Other (nth j df d)) (Num NaN)) i.
Proof.
  intros W. rewrite Forall_forall in W.
  assert (Wn : forall j, (j < length df)%nat -> length (Other (nth j df d)) = w)
    by (intros j Hj; apply W, nth_In, Hj).
  induction i as [|j IH]; intros H.
  - rewrite nth_ffill_0. split; [apply Wn; assumption|]. reflexivity.
  - destruct IH as (IL & IC); [lia|].
    rewrite nth_ffill_S by assumption. cbn [fill_row Other].
    split; [rewrite length_fill_cells; apply Wn; assumption|].
    intros c Hc.
    rewrite nth_fill_cells by (rewrite ?Wn by assumption; lia).
    cbn [Spec.last_valid]. rewrite <- IC by assumption.
    reflexivity.
Qed.

Lemma row_all_na_has_na (r : Row) : row_all_na r = true -> row_has_na r = true.
Proof.
  unfold row_all_na, row_has_na. rewrite !andb_true_iff.
  intros [[[H _] _] _]. rewrite H. reflexivity.
Qed.

(** C7, as the code has it.  Missing values are first filled forward,
    column by column, over the whole frame in file order; then every row in
    which a value is still missing is dropped (the fully missing rows among
    them); the rows left are sorted by symbol and date.  All of it happens
    on the whole frame, before any grouping by symbol. *)
Theorem preprocess_fill_drop_sort (df : DataFrame) (d : Row) :
  preprocess df = sort_values (dropna (ffill df))
  /\ (forall i, (i < length df)%nat ->
        let row := nth i (ffill df) d in
        Symbol row = Spec.last_valid is_none (fun j => Symbol (nth j df d)) i
        /\ Date row = Spec.last_valid is_none (fun j => Date (nth j df d)) i
        /\ Close row = Spec.last_valid isnan (fun j => Close (nth j df d)) i)
  /\ (forall w, Forall (fun r => length (Other r) = w) df ->
        forall i c, (i < length df)%nat -> (c < w)%nat ->
          nth c (Other (nth i (ffill df) d)) (Num NaN)
          = Spec.last_valid cell_isna
              (fun j => nth c (Other (nth j df d)) (Num NaN)) i)
  /\ (forall r, In r (preprocess df)
                <-> In r (ffill df) /\ row_has_na r = false)
  /\ (forall r, row_all_na r = true -> ~ In r (preprocess df))
  /\ key_sorted (preprocess df).
Proof.
  split; [reflexivity|].
  split; [intros i H; apply ffill_columns; assumption|].
  split.
  { intros w W i c Hi Hc.
    destruct (ffill_other_columns d df w W i Hi) as [_ H]. apply H, Hc. }
  assert (M : forall r, In r (preprocess df)
                        <-> In r (ffill df) /\ row_has_na r = false).
  { intros r. unfold preprocess, dropna.
    rewrite In_sort_values, filter_In, negb_true_iff. reflexivity. }
  split; [exact M|]. split.
  - intros r A H. apply M in H. destruct H as [_ H].
    rewrite (row_all_na_has_na r A) in H. discriminate.
  - apply sort_values_sorted.
Qed.

(** The claim as the specification words it fails: a first row whose
    close is missing has nothing above to be filled from; its symbol and
    date are present, and [dropna] drops it all the same. *)
Lemma dropna_drops_partly_missing_row :
  In Sample.r1 (ffill [Sample.r1; Sample.r2])
  /\ row_all_na Sample.r1 = false
  /\ ~ In Sample.r1 (dropna (ffill [Sample.r1; Sample.r2]))
  /\ preprocess [Sample.r1; Sample.r2] = [Sample.r2].
Proof.
  split; [left; reflexivity|]. split; [reflexivity|].
  split; [|reflexivity].
  simpl. intros [H|[]]. discriminate H.
Qed.

(* ----------------------------------------------------------------- *)
(** ** The theorems on the sample data *)

Lemma rsi_flat_is_nan_witness :
  nth_error (compute_rsi Sample.flat) 14 = Some NaN.
Proof.
  destruct (rsi_flat_is_nan Sample.flat 14 (Fin 0) NegZero) as (H & _).
  - vm_compute. reflexivity.
  - vm_compute. reflexivity.
  - reflexivity.
  - reflexivity.
  - exact H.
Defined.

Lemma rsi_bounded_witness :
  exists v, nth_error (compute_rsi Sample.mixed) 20 = Some (Fin v)
            /\ 0 <= v /\ v <= Qc_of_Z 100.
Proof.
  apply (rsi_bounded Sample.mixed 20
           (val (nth 20 (rsi_gain 14 Sample.mixed) NaN))
           (val (nth 20 (rsi_loss 14 Sample.mixed) NaN))).
  - vm_compute. reflexivity.
  - vm_compute. reflexivity.
  - vm_compute. reflexivity.
  - vm_compute. reflexivity.
Defined.

Lemma rsi_zero_loss_is_100_witness :
  nth_error (compute_rsi Sample.rising) 14 = Some (of_Z 100).
Proof.
  apply (rsi_zero_loss_is_100 Sample.rising 14
           (val (nth 14 (rsi_gain 14 Sample.rising) NaN)) NegZero).
  - vm_compute. reflexivity.
  - vm_compute. reflexivity.
  - vm_compute. reflexivity.
  - reflexivity.
Defined.

Lemma indicators_per_symbol_witness :
  partition "ABC" (add_indicators (sort_values Sample.raw))
  = partition "ABC" (add_indicators
                       (sort_values (group_rows "ABC" Sample.raw)))
  /\ partition "ABC"
       (add_indicators
          (sort_values ([Sample.r1] ++ group_rows "XYZ" Sample.raw ++ [Sample.r2])))
     = partition "ABC"
         (add_indicators (sort_values ([Sample.r1] ++ [Sample.r2]))).
Proof.
  destruct (indicators_per_symbol "ABC") as [H1 H2]. split.
  - apply H1. vm_compute. reflexivity.
  - apply H2. apply Forall_forall. intros r Hr.
    apply filter_In in Hr. destruct Hr as [_ Hr].
    unfold has_symbol in *. destruct (Symbol r) as [s|]; [|reflexivity].
    apply String.eqb_eq in Hr. subst s. reflexivity.
Defined.

Lemma filter_exact_witness :
  filtered_df (add_indicators Sample.df) [] 0 59 = []
  /\ filtered_df (add_indicators Sample.df) ["ABC"%string] 30 10 = [].
Proof.
  destruct (filter_exact (add_indicators Sample.df) [] 0 59)
    as (_ & _ & _ & _ & _ & H & _).
  destruct (filter_exact (add_indicators Sample.df) ["ABC"%string] 30 10)
    as (_ & _ & _ & _ & _ & _ & H' & _).
  split; [apply H; reflexivity | apply H'; lia].
Defined.

Lemma preprocess_fill_drop_sort_witness :
  In Sample.r2 (preprocess [Sample.r1; Sample.r2])
  /\ Close (nth 1 (ffill [Sample.r1; Sample.r2]) Sample.r1) = of_Z 100.
Proof.
  destruct (preprocess_fill_drop_sort [Sample.r1; Sample.r2] Sample.r1)
    as (_ & C & _ & M & _).
  split.
  - apply M. split; [right; left; reflexivity | reflexivity].
  - destruct (C 1%nat) as (_ & _ & H); [simpl; lia|].
    rewrite H. reflexivity.
Defined.

(* ================================================================= *)
(** * Further properties of the script *)

(* ----------------------------------------------------------------- *)
(** ** Sorting *)

Lemma insert_row_perm (r : Row) (l : DataFrame) :
  Permutation (insert_row r l) (r :: l).
Proof.
  induction l as [|x l IH]; simpl; [reflexivity|].
  destruct (key_le r x); [reflexivity|].
  rewrite IH. apply perm_swap.
Qed.

Lemma sort_values_perm (l : DataFrame) : Permutation (sort_values l) l.
Proof.
  induction l as [|r l IH]; simpl; [reflexivity|].
  rewrite insert_row_perm, IH. reflexivity.
Qed.

(** Sorting a frame that is in order changes nothing. *)
Lemma sort_values_sorted_id (l : DataFrame) :
  key_sorted l -> sort_values l = l.
Proof.
  unfold key_sorted. induction 1 as [|r l Sl IH Fr]; simpl; [reflexivity|].
  rewrite IH. apply insert_row_front. assumption.
Qed.

Lemma same_key_sorted (a : Row) (l : DataFrame) :
  Forall (fun r => same_key a r = true) l -> key_sorted l.
Proof.
  unfold key_sorted, same_key.
  induction 1 as [|x l Hx Hl IH]; constructor; [assumption|].
  rewrite Forall_forall in *. intros y Hy. specialize (Hl y Hy).
  destruct (key_compare a x) eqn:Ax; try discriminate.
  destruct (key_compare a y) eqn:Ay; try discriminate.
  unfold key_le.
  assert (Xa : key_compare x a = Eq)
    by (rewrite key_compare_antisym, Ax; reflexivity).
  rewrite (key_compare_Eq x a y Xa), Ay. reflexivity.
Qed.

(** X4.  [sort_values] returns the rows of the frame, each as often as
    before, in ascending order of (symbol, date), and the rows that share a
    symbol and a date stay in the order they had. *)
Theorem sort_values_stable (df : DataFrame) :
  Permutation (sort_values df) df
  /\ key_sorted (sort_values df)
  /\ forall a : Row,
      filter (same_key a) (sort_values df) = filter (same_key a) df.
Proof.
  split; [apply sort_values_perm|].
  split; [apply sort_values_sorted|].
  intros a. rewrite filter_sort_values.
  apply sort_values_sorted_id, (same_key_sorted a).
  apply Forall_forall. intros r Hr. apply filter_In in Hr. tauto.
Qed.

(* ----------------------------------------------------------------- *)
(** ** Forward fill and drop *)

Lemma fill_cells_complete (p c : list cell) :
  existsb cell_isna c = false -> fill_cells p c = c.
Proof.
  revert p. induction c as [|y c IH]; intros [|x p] H; simpl in *;
    try reflexivity.
  apply orb_false_iff in H. destruct H as [Hy Hc].
  unfold fill_cell. rewrite Hy, IH by assumption. reflexivity.
Qed.

(** A row without missing value is left as it is by the fill. *)
Lemma fill_row_complete (prev r : Row) :
  row_has_na r = false -> fill_row prev r = r.
Proof.
  unfold row_has_na. rewrite !orb_false_iff. intros [[[Hs Hd] Hc] Ho].
  destruct r as [s d c o]. simpl in *. unfold fill_row. simpl.
  rewrite fill_cells_complete by assumption.
  unfold fill_float. rewrite Hc.
  destruct s, d; try discriminate. reflexivity.
Qed.

Lemma ffill_from_complete (prev : Row) (df : DataFrame) :
  complete df -> ffill_from prev df = df.
Proof.
  unfold complete. intros H. revert prev.
  induction H as [|r df Hr _ IH]; intros prev; simpl; [reflexivity|].
  rewrite (fill_row_complete prev r Hr), IH. reflexivity.
Qed.

Lemma ffill_complete (df : DataFrame) : complete df -> ffill df = df.
Proof.
  intros H. destruct df as [|r df]; [reflexivity|]. simpl.
  rewrite ffill_from_complete; [reflexivity|].
  inversion H. assumption.
Qed.

Lemma dropna_complete (df : DataFrame) : complete df -> dropna df = df.
Proof.
  unfold complete, dropna. induction 1 as [|r df Hr _ IH]; simpl;
    [reflexivity|]. rewrite Hr, IH. reflexivity.
Qed.

Lemma preprocess_complete (df : DataFrame) : complete (preprocess df).
Proof.
  unfold complete, preprocess, dropna. apply Forall_forall. intros r Hr.
  apply In_sort_values, filter_In in Hr. destruct Hr as [_ Hr].
  apply negb_true_iff. assumption.
Qed.

(** X1.  After preprocessing every row has its symbol, its date, a close
    that is not NaN and no missing cell in any other column. *)
Theorem preprocess_rows_complete (df : DataFrame) (r : Row) :
  In r (preprocess df) ->
  (exists s, Symbol r = Some s) /\ (exists d, Date r = Some d)
  /\ isnan (Close r) = false
  /\ Forall (fun c => cell_isna c = false) (Other r).
Proof.
  intros H.
  pose proof (preprocess_complete df) as C. unfold complete in C.
  rewrite Forall_forall in C. specialize (C r H).
  unfold row_has_na in C. rewrite !orb_false_iff in C.
  destruct C as [[[Hs Hd] Hc] Ho].
  split; [destruct (Symbol r); [eauto | discriminate]|].
  split; [destruct (Date r); [eauto | discriminate]|].
  split; [assumption|].
  apply Forall_forall. intros c Hin.
  destruct (cell_isna c) eqn:E; [|reflexivity].
  assert (X : existsb cell_isna (Other r) = true)
    by (apply existsb_exists; eauto).
  congruence.
Qed.

(** X3.  Preprocessing a preprocessed frame changes nothing. *)
Theorem preprocess_idempotent (df : DataFrame) :
  preprocess (preprocess df) = preprocess df.
Proof.
  pose proof (preprocess_complete df) as C.
  unfold preprocess at 1.
  rewrite (ffill_complete _ C), (dropna_complete _ C).
  apply sort_values_sorted_id. apply sort_values_sorted.
Qed.

Lemma fill_cells_keeps_complete (p c : list cell) :
  length p = length c -> existsb cell_isna p = false ->
  existsb cell_isna (fill_cells p c) = false.
Proof.
  revert c. induction p as [|x p IH]; intros [|y c] L H; simpl in *;
    try discriminate; try reflexivity.
  apply orb_false_iff in H. destruct H as [Hx Hp].
  apply orb_false_iff. split; [|apply IH; [lia | assumption]].
  unfold fill_cell. destruct (cell_isna y) eqn:E; assumption.
Qed.

(** Below a row without missing value the fill leaves no missing value. *)
Lemma fill_row_keeps_complete (prev r : Row) :
  length (Other prev) = length (Other r) ->
  row_has_na prev = false -> row_has_na (fill_row prev r) = false.
Proof.
  unfold row_has_na. rewrite !orb_false_iff.
  intros L [[[Hs Hd] Hc] Ho]. unfold fill_row. cbn [Symbol Date Close Other].
  repeat split.
  - destruct (Symbol prev); [|discriminate]. destruct (Symbol r); reflexivity.
  - destruct (Date prev); [|discriminate]. destruct (Date r); reflexivity.
  - unfold fill_float. destruct (isnan (Close r)) eqn:E; assumption.
  - apply fill_cells_keeps_complete; assumption.
Qed.

Lemma ffill_from_keeps_complete (w : nat) (rest : DataFrame) :
  rectangular w rest ->
  forall prev, length (Other prev) = w -> row_has_na prev = false ->
               complete (ffill_from prev rest).
Proof.
  unfold rectangular, complete.
  induction 1 as [|r rest Hr _ IH]; intros prev L C; simpl; constructor.
  - apply fill_row_keeps_complete; [congruence | assumption].
  - apply IH.
    + unfold fill_row. cbn [Other]. rewrite length_fill_cells. assumption.
    + apply fill_row_keeps_complete; [congruence | assumption].
Qed.

Lemma dropna_ffill_from_block (w : nat) (rest : DataFrame) :
  rectangular w rest ->
  forall prev, length (Other prev) = w ->
    exists n,
      dropna (ffill_from prev rest) = skipn n (ffill_from prev rest)
      /\ Forall (fun r => row_has_na r = true)
                (firstn n (ffill_from prev rest)).
Proof.
  unfold rectangular.
  induction 1 as [|r rest Hr Hrest IH]; intros prev L.
  - exists 0%nat. split; [reflexivity | constructor].
  - cbn [ffill_from].
    assert (L' : length (Other (fill_row prev r)) = w)
      by (unfold fill_row; cbn [Other]; rewrite length_fill_cells; assumption).
    destruct (row_has_na (fill_row prev r)) eqn:E.
    + destruct (IH (fill_row prev r) L') as (n & Hn & Fn).
      exists (S n). cbn [dropna filter skipn firstn]. rewrite E. simpl.
      split; [exact Hn | constructor; assumption].
    + exists 0%nat. split; [|constructor].
      cbn [skipn]. apply dropna_complete. constructor; [assumption|].
      apply (ffill_from_keeps_complete w); assumption.
Qed.

(** X2.  In a frame whose rows all have the same columns, the rows that
    [dropna] removes after the forward fill are a leading block of the
    file: once a filled row has every value, so has every row below it. *)
Theorem dropna_removes_leading_block (w : nat) (df : DataFrame) :
  rectangular w df ->
  exists n,
    dropna (ffill df) = skipn n (ffill df)
    /\ Forall (fun r => row_has_na r = true) (firstn n (ffill df))
    /\ complete (skipn n (ffill df)).
Proof.
  intros R.
  assert (B : exists n, dropna (ffill df) = skipn n (ffill df)
                        /\ Forall (fun r => row_has_na r = true)
                                  (firstn n (ffill df))).
  { destruct df as [|r rest]; [exists 0%nat; split; [reflexivity|constructor]|].
    inversion R as [|? ? Lr Rrest]; subst. cbn [ffill].
    destruct (row_has_na r) eqn:E.
    - destruct (dropna_ffill_from_block _ rest Rrest r eq_refl)
        as (n & Hn & Fn).
      exists (S n). cbn [dropna filter skipn firstn]. rewrite E. simpl.
      split; [exact Hn | constructor; assumption].
    - exists 0%nat. split; [|constructor].
      cbn [skipn]. apply dropna_complete. constructor; [assumption|].
      apply (ffill_from_keeps_complete (length (Other r))); auto. }
  destruct B as (n & Hn & Fn). exists n.
  split; [assumption|]. split; [assumption|].
  rewrite <- Hn. unfold complete, dropna. apply Forall_forall.
  intros r Hr. apply filter_In in Hr. destruct Hr as [_ Hr].
  apply negb_true_iff. assumption.
Qed.

(* ----------------------------------------------------------------- *)
(** ** The indicator columns *)

Lemma map_base_add_indicators (df : DataFrame) :
  map base (add_indicators df) = df.
Proof.
  unfold add_indicators, SMA_50_column, SMA_200_column, RSI_column,
    MACD_column, ema_12, ema_26.
  apply attach_columns; rewrite ?length_zip_with;
    rewrite ?length_transform; reflexivity.
Qed.

(** X5.  Assigning the four columns keeps the frame: one indicator row per
    row, on the same rows, in the same order; the rows of a symbol in the
    result are the rows of that symbol in the frame. *)
Theorem add_indicators_keeps_rows (df : DataFrame) :
  map base (add_indicators df) = df
  /\ length (add_indicators df) = length df
  /\ forall k, map base (partition k (add_indicators df)) = group_rows k df.
Proof.
  split; [apply map_base_add_indicators|].
  split.
  - rewrite <- (map_base_add_indicators df) at 2. rewrite length_map.
    reflexivity.
  - intros k. destruct (partition_columns k df) as (B & _). exact B.
Qed.

Lemma rolling_mean_short (w : nat) (s : Series) (x : float64) :
  (length s < w)%nat -> In x (rolling_mean w s) -> x = NaN.
Proof.
  intros Short H. unfold rolling_mean in H.
  apply in_map_iff in H. destruct H as (i & <- & Hi).
  apply in_seq in Hi. apply mean_window_few.
  pose proof (observations_le (window w i s)) as O.
  rewrite window_length in O by lia. lia.
Qed.

Lemma compute_rsi_short (s : Series) (x : float64) :
  (length s <= 14)%nat -> In x (compute_rsi s) -> x = NaN.
Proof.
  intros Short H. apply In_nth_error in H. destruct H as [i Hi].
  assert (I : (i < length s)%nat).
  { rewrite <- length_compute_rsi. apply nth_error_Some. congruence. }
  assert (H0 : nth_error (diff s) 0 = Some NaN).
  { apply nth_error_diff_0. destruct s; [simpl in I; lia | discriminate]. }
  assert (G : nth_error (rsi_gain 14 s) i = Some NaN).
  { unfold rsi_gain, rsi_delta. apply rolling_mean_head;
      [rewrite length_clip_lower, length_diff; lia | lia |].
    unfold clip_lower. rewrite nth_error_map, H0. reflexivity. }
  assert (L : nth_error (rsi_loss 14 s) i = Some NaN).
  { unfold rsi_loss, rsi_delta. rewrite nth_error_map.
    rewrite rolling_mean_head;
      [reflexivity | rewrite length_clip_upper, length_diff; lia | lia |].
    unfold clip_upper. rewrite nth_error_map, H0. reflexivity. }
  destruct (compute_rsi_at _ _ _ _ G L) as [_ E].
  rewrite E in Hi. injection Hi as <-. reflexivity.
Qed.

(** X6.  A symbol with fewer rows than a window has no defined value for
    that window, whatever its closes: with fewer than 50 rows every SMA_50
    is NaN, with fewer than 200 every SMA_200, with at most 14 every RSI;
    nothing fails. *)
Theorem short_partition_undefined (df : DataFrame) (k : string) :
  let n := length (group_rows k df) in
  let rows := partition k (add_indicators df) in
  length rows = n
  /\ ((n < 50)%nat -> forall r, In r rows -> SMA_50 r = NaN)
  /\ ((n < 200)%nat -> forall r, In r rows -> SMA_200 r = NaN)
  /\ ((n <= 14)%nat -> forall r, In r rows -> RSI r = NaN).
Proof.
  cbv zeta.
  destruct (partition_columns k df) as (B & S50 & S200 & R & _).
  assert (Lc : length (group_close k df) = length (group_rows k df))
    by apply length_map.
  split; [rewrite <- B; symmetry; apply length_map|].
  split; [|split]; intros Short r Hr.
  - apply (rolling_mean_short 50 (group_close k df)); [lia|].
    rewrite <- S50. apply in_map. assumption.
  - apply (rolling_mean_short 200 (group_close k df)); [lia|].
    rewrite <- S200. apply in_map. assumption.
  - apply (compute_rsi_short (group_close k df)); [lia|].
    rewrite <- R. apply in_map. assumption.
Qed.

Lemma rsi_of_rs_zero (g : float64) (l : Qc) :
  is_zero g = true -> 0 < l -> rsi_of_rs (div g (Fin l)) = Fin 0.
Proof.
  intros G L.
  assert (Z : is_zero (div g (Fin l)) = true
              /\ isnan (div g (Fin l)) = false
              /\ is_inf (div g (Fin l)) = false).
  { unfold div. destruct g; try discriminate; cbn [isnan is_inf orb];
      rewrite (is_zero_pos l L), ?G; destruct (xorb _ _); auto. }
  destruct Z as (Z & _ & _).
  destruct (div g (Fin l)) as [| | | |q]; try discriminate.
  - unfold rsi_of_rs, of_Z. simpl.
    f_equal; try (apply Qc_is_canon; reflexivity).
  - apply is_zero_Fin in Z. subst q.
    unfold rsi_of_rs, of_Z. simpl.
    f_equal; try (apply Qc_is_canon; reflexivity).
Qed.

(* ----------------------------------------------------------------- *)
(** ** Averages stay within the range of the closes *)

Lemma at_bounds (lo hi : Qc) (qs : list Qc) (k : nat) :
  (forall q, In q qs -> lo <= q /\ q <= hi) ->
  (k < length qs)%nat -> lo <= Spec.at_ qs k /\ Spec.at_ qs k <= hi.
Proof. intros H K. apply H. unfold Spec.at_. apply nth_In. assumption. Qed.

Lemma ema_bounds (a lo hi : Qc) (qs : list Qc) (i : nat) :
  0 < a -> a < 1 ->
  (forall q, In q qs -> lo <= q /\ q <= hi) ->
  (i < length qs)%nat ->
  lo <= Spec.ema a qs i /\ Spec.ema a qs i <= hi.
Proof.
  intros A0 A1 B. induction i as [|j IH]; intros I.
  - simpl. apply at_bounds; assumption.
  - destruct IH as [E1 E2]; [lia|].
    destruct (at_bounds lo hi qs (S j) B I) as [C1 C2].
    cbn [Spec.ema].
    revert E1 E2 C1 C2. generalize (Spec.ema a qs j) (Spec.at_ qs (S j)).
    intros e c E1 E2 C1 C2. split; to_Q; nra.
Qed.

(** X9.  On the rows of a symbol whose closes all lie between [lo] and
    [hi], both exponential means lie between [lo] and [hi] at every row, so
    the MACD never exceeds [hi - lo] in size: a flat price gives MACD 0. *)
Theorem macd_within_range (df : DataFrame) (k : string) (qs : list Qc)
        (lo hi : Qc) (i : nat) :
  group_close k df = map Fin qs ->
  (forall q, In q qs -> lo <= q /\ q <= hi) ->
  (i < length qs)%nat ->
  exists e12 e26 : Qc,
    nth_error (select k df (ema_12 df)) i = Some (Fin e12)
    /\ nth_error (select k df (ema_26 df)) i = Some (Fin e26)
    /\ nth_error (map MACD (partition k (add_indicators df))) i
       = Some (Fin (e12 - e26))
    /\ lo <= e12 /\ e12 <= hi /\ lo <= e26 /\ e26 <= hi
    /\ lo - hi <= e12 - e26 /\ e12 - e26 <= hi - lo.
Proof.
  intros Hc B I.
  assert (A12 : 0 < alpha_of_span 12 /\ alpha_of_span 12 < 1)
    by (split; reflexivity).
  assert (A26 : 0 < alpha_of_span 26 /\ alpha_of_span 26 < 1)
    by (split; reflexivity).
  destruct A12 as [P12 L12]. destruct A26 as [P26 L26].
  exists (Spec.ema (alpha_of_span 12) qs i), (Spec.ema (alpha_of_span 26) qs i).
  assert (N12 : nth_error (ewm_mean 12 (map Fin qs)) i
                = Some (Fin (Spec.ema (alpha_of_span 12) qs i))).
  { rewrite ewm_mean_Fin by assumption.
    apply (nth_error_map_seq
             (fun j => Fin (Spec.ema (alpha_of_span 12) qs j))).
    assumption. }
  assert (N26 : nth_error (ewm_mean 26 (map Fin qs)) i
                = Some (Fin (Spec.ema (alpha_of_span 26) qs i))).
  { rewrite ewm_mean_Fin by assumption.
    apply (nth_error_map_seq
             (fun j => Fin (Spec.ema (alpha_of_span 26) qs j))).
    assumption. }
  destruct (partition_columns k df) as (_ & _ & _ & _ & M).
  rewrite Hc in M.
  destruct (ema_bounds _ lo hi qs i P12 L12 B I) as [E1 E2].
  destruct (ema_bounds _ lo hi qs i P26 L26 B I) as [F1 F2].
  unfold ema_12, ema_26.
  rewrite !select_transform by apply length_ewm_mean. rewrite Hc.
  split; [assumption|]. split; [assumption|].
  split.
  { rewrite M, (nth_error_zip_with sub _ _ i _ _ N12 N26), sub_Fin.
    reflexivity. }
  repeat split; try assumption; to_Q; lra.
Qed.

(* ----------------------------------------------------------------- *)
(** ** Loading *)

(** X10.  An uploaded file comes first: the local file is then not looked
    at and no message is shown for it.  With the local file alone the run
    is the run on that file as if uploaded, after the message that it was
    loaded. *)
Theorem uploaded_file_first (raw : DataFrame) (local_file : option DataFrame)
        (selected_symbols : list string) (start_date end_date : Z) :
  main (Some raw) local_file selected_symbols start_date end_date
  = main (Some raw) None selected_symbols start_date end_date
  /\ main None (Some raw) selected_symbols start_date end_date
     = (Shown (Info "✅ Loaded Nifty_Stocks.csv from local folder.")
          :: fst (main (Some raw) None selected_symbols start_date end_date),
        snd (main (Some raw) None selected_symbols start_date end_date)).
Proof.
  split; [reflexivity|].
  unfold main, load. simpl.
  destruct (sidebar (add_indicators (preprocess raw))) as [log [[]| |e]];
    reflexivity.
Qed.

(* ----------------------------------------------------------------- *)
(** ** The tabs *)

Lemma column_in_In (name : string) (columns : list string) :
  column_in name columns = true <-> In name columns.
Proof.
  unfold column_in. rewrite existsb_exists. split.
  - intros (x & Hx & E). apply String.eqb_eq in E. subst. assumption.
  - intros H. exists name. split; [assumption | apply String.eqb_refl].
Qed.

Lemma In_assign_column (x name : string) (columns : list string) :
  In x (assign_column name columns) <-> x = name \/ In x columns.
Proof.
  unfold assign_column. destruct (column_in name columns) eqn:E.
  - apply column_in_In in E. split; [auto|]. intros [->|H]; assumption.
  - rewrite in_app_iff. simpl. intuition.
Qed.

(** X14.  Whatever the columns of the file, the heatmap tab draws the
    chart: the four indicator columns are always among the columns it
    correlates, so its notice "no numerical columns" is never shown.  The
    columns correlated are those of the fixed list that the frame has, in
    the order of the list. *)
Theorem heatmap_always_drawn (columns : list string) :
  exists cols,
    tab3 (columns_with_indicators columns) = Chart cols
    /\ incl ["SMA_50"; "SMA_200"; "RSI"; "MACD"]%string cols
    /\ cols = filter (fun c => column_in c (columns_with_indicators columns))
                     corr_cols
    /\ forall c, In c cols
                 <-> In c corr_cols
                     /\ (In c columns
                         \/ In c ["SMA_50"; "SMA_200"; "RSI"; "MACD"]%string).
Proof.
  assert (M : forall c, In c (available_cols (columns_with_indicators columns))
                        <-> In c corr_cols
                            /\ (In c columns
                                \/ In c ["SMA_50"; "SMA_200"; "RSI"; "MACD"]%string)).
  { intros c. unfold available_cols. rewrite filter_In, column_in_In.
    unfold columns_with_indicators. rewrite !In_assign_column.
    simpl. intuition. }
  assert (I : incl ["SMA_50"; "SMA_200"; "RSI"; "MACD"]%string
                   (available_cols (columns_with_indicators columns))).
  { intros c Hc. apply M. split; [|right; assumption].
    simpl in Hc. unfold corr_cols. simpl. intuition. }
  exists (available_cols (columns_with_indicators columns)).
  split; [|split; [exact I | split; [reflexivity | exact M]]].
  unfold tab3.
  destruct (available_cols (columns_with_indicators columns)) eqn:E;
    [|reflexivity].
  exfalso. apply (I "RSI"%string). simpl. auto.
Qed.

(* ----------------------------------------------------------------- *)
(** ** The default date range *)

Lemma fold_min_le (l : list Z) (d : Z) :
  (fold_left Z.min l d <= d)%Z
  /\ forall x, In x l -> (fold_left Z.min l d <= x)%Z.
Proof.
  revert d. induction l as [|y l IH]; intros d; simpl.
  - split; [lia | intros x []].
  - destruct (IH (Z.min d y)) as [A B]. split; [lia|].
    intros x [<-|Hx]; [lia | apply B; assumption].
Qed.

Lemma fold_max_ge (l : list Z) (d : Z) :
  (d <= fold_left Z.max l d)%Z
  /\ forall x, In x l -> (x <= fold_left Z.max l d)%Z.
Proof.
  revert d. induction l as [|y l IH]; intros d; simpl.
  - split; [lia | intros x []].
  - destruct (IH (Z.max d y)) as [A B]. split; [lia|].
    intros x [<-|Hx]; [lia | apply B; assumption].
Qed.

Lemma In_dates (df : list IndicatorRow) (r : IndicatorRow) (d : Z) :
  In r df -> Date (base r) = Some d -> In d (dates df).
Proof.
  intros H E. unfold dates. apply in_flat_map. exists r.
  split; [assumption|]. rewrite E. left. reflexivity.
Qed.

(** X12.  The default range of the date picker, from the smallest to the
    largest date of the frame, excludes no row: with it, selecting every
    symbol of a frame without missing symbol or date shows the whole
    frame. *)
Theorem default_range_keeps_all (df : list IndicatorRow)
        (selected_symbols : list string) :
  df <> [] ->
  (forall r, In r df ->
     exists s d, Symbol (base r) = Some s /\ In s selected_symbols
                 /\ Date (base r) = Some d) ->
  exists lo hi,
    min_date df = Some lo /\ max_date df = Some hi /\ (lo <= hi)%Z
    /\ (forall r d, In r df -> Date (base r) = Some d -> (lo <= d <= hi)%Z)
    /\ filtered_df df selected_symbols lo hi = df.
Proof.
  intros NE H.
  destruct (dates df) as [|d0 rest] eqn:D.
  { destruct df as [|r df]; [congruence|].
    destruct (H r (or_introl eq_refl)) as (s & d & _ & _ & Hd).
    pose proof (In_dates (r :: df) r d (or_introl eq_refl) Hd) as X.
    rewrite D in X. destruct X. }
  exists (fold_left Z.min rest d0), (fold_left Z.max rest d0).
  destruct (fold_min_le rest d0) as [A1 A2].
  destruct (fold_max_ge rest d0) as [B1 B2].
  assert (R : forall r d, In r df -> Date (base r) = Some d ->
                          (fold_left Z.min rest d0 <= d
                           <= fold_left Z.max rest d0)%Z).
  { intros r d Hr Hd. pose proof (In_dates df r d Hr Hd) as X.
    rewrite D in X. destruct X as [<-|X]; [lia|].
    split; [apply A2 | apply B2]; assumption. }
  unfold min_date, max_date. rewrite D.
  split; [reflexivity|]. split; [reflexivity|]. split; [lia|].
  split; [exact R|].
  unfold filtered_df. apply forallb_filter_id. apply forallb_forall.
  intros r Hr. apply keep_row_spec.
  destruct (H r Hr) as (s & d & Hs & Hin & Hd).
  exists s, d. destruct (R r d Hr Hd). auto.
Qed.

(* ----------------------------------------------------------------- *)
(** ** The data of one chart *)

Lemma filter_filter {A : Type} (p q : A -> bool) (l : list A) :
  filter p (filter q l) = filter (fun x => q x && p x) l.
Proof.
  induction l as [|x l IH]; simpl; [reflexivity|].
  destruct (q x); simpl; [destruct (p x)|]; rewrite IH; reflexivity.
Qed.

Lemma filter_none {A : Type} (p : A -> bool) (l : list A) :
  (forall x, In x l -> p x = false) -> filter p l = [].
Proof.
  induction l as [|x l IH]; intros H; simpl; [reflexivity|].
  rewrite (H x (or_introl eq_refl)). apply IH.
  intros y Hy. apply H. right. assumption.
Qed.

Lemma StronglySorted_map_inv {A B : Type} (R : B -> B -> Prop) (f : A -> B)
      (l : list A) :
  StronglySorted R (map f l) -> StronglySorted (fun a b => R (f a) (f b)) l.
Proof.
  induction l as [|x l IH]; simpl; intros H; [constructor|].
  inversion H as [|? ? Hs Hf]; subst. constructor; [apply IH; assumption|].
  rewrite Forall_forall in *. intros y Hy. apply Hf, in_map, Hy.
Qed.

Lemma StronglySorted_filter {A : Type} (R : A -> A -> Prop) (p : A -> bool)
      (l : list A) :
  StronglySorted R l -> StronglySorted R (filter p l).
Proof.
  induction 1 as [|x l Hs IH Hx]; simpl; [constructor|].
  destruct (p x); [|assumption]. constructor; [assumption|].
  rewrite Forall_forall in *. intros y Hy. apply filter_In in Hy.
  apply Hx. tauto.
Qed.

Lemma StronglySorted_weaken {A : Type} (R R' : A -> A -> Prop) (P : A -> Prop)
      (l : list A) :
  (forall a b, P a -> P b -> R a b -> R' a b) ->
  Forall P l -> StronglySorted R l -> StronglySorted R' l.
Proof.
  intros W F S. induction S as [|x l Hs IH Hx]; [constructor|].
  inversion F as [|? ? Px Pl]; subst.
  constructor; [apply IH; assumption|].
  rewrite Forall_forall in *. intros y Hy. apply W; auto.
Qed.

(** Between two rows of one symbol the sort order is the order of the
    dates. *)
Lemma key_le_same_symbol (k : string) (a b : Row) :
  has_symbol k a = true -> has_symbol k b = true -> key_le a b = true ->
  opt_compare Z.compare (Date a) (Date b) <> Gt.
Proof.
  unfold has_symbol, key_le, key_compare. intros Ha Hb.
  destruct (Symbol a) as [sa|]; [|discriminate].
  destruct (Symbol b) as [sb|]; [|discriminate].
  apply String.eqb_eq in Ha, Hb. subst sa sb. cbn [opt_compare].
  rewrite (proj2 (string_compare_eq k k) eq_refl).
  destruct (opt_compare Z.compare (Date a) (Date b)); congruence.
Qed.

(** X13.  The charts of a selected symbol are drawn from that symbol's
    rows of the frame whose date lies in the range, in ascending order of
    date, each with the indicator values computed on the symbol's whole
    history; a symbol that is not selected has no chart data. *)
Theorem stock_data_of_symbol (raw : DataFrame) (selected_symbols : list string)
        (start_date end_date : Z) (symbol : string) :
  let df := add_indicators (preprocess raw) in
  let data := stock_data (filtered_df df selected_symbols start_date end_date)
                         symbol in
  (In symbol selected_symbols ->
   data = filter (fun r => date_ge (Date (base r)) start_date
                           && date_le (Date (base r)) end_date)
                 (compute_partition (group_rows symbol (preprocess raw))))
  /\ (~ In symbol selected_symbols -> data = [])
  /\ date_ascending data
  /\ (forall r, In r data ->
                In r (compute_partition (group_rows symbol (preprocess raw)))).
Proof.
  cbv zeta. unfold stock_data, filtered_df.
  rewrite filter_filter.
  assert (Sel : forall r : IndicatorRow,
             has_symbol symbol (base r) = true ->
             isin (Symbol (base r)) selected_symbols = true
             <-> In symbol selected_symbols).
  { intros r Hr. rewrite isin_In. unfold has_symbol in Hr.
    destruct (Symbol (base r)) as [s|]; [|discriminate].
    apply String.eqb_eq in Hr. subst s. split.
    - intros (x & [= <-] & Hx). assumption.
    - intros Hx. eauto. }
  split; [|split; [|split]].
  - intros Hin. rewrite <- partition_add_indicators. unfold partition.
    rewrite filter_filter. apply filter_ext. intros r.
    unfold keep_row. destruct (has_symbol symbol (base r)) eqn:Hr.
    + rewrite (proj2 (Sel r Hr) Hin). simpl. rewrite andb_true_r.
      reflexivity.
    + rewrite andb_false_r. reflexivity.
  - intros Hout. apply filter_none. intros r _.
    unfold keep_row. destruct (has_symbol symbol (base r)) eqn:Hr;
      [|apply andb_false_r].
    destruct (isin (Symbol (base r)) selected_symbols) eqn:E;
      [|reflexivity].
    apply (Sel r Hr) in E. contradiction.
  - unfold date_ascending.
    apply (StronglySorted_weaken
             (fun a b => key_le (base a) (base b) = true) _
             (fun r => has_symbol symbol (base r) = true)).
    + intros a b Ha Hb. apply (key_le_same_symbol symbol); assumption.
    + apply Forall_forall. intros r Hr. apply filter_In in Hr.
      destruct Hr as [_ Hr]. apply andb_true_iff in Hr. tauto.
    + apply StronglySorted_filter.
      apply (StronglySorted_map_inv (fun a b => key_le a b = true) base).
      rewrite map_base_add_indicators. apply sort_values_sorted.
  - intros r Hr. apply filter_In in Hr. destruct Hr as [Hr Hp].
    apply andb_true_iff in Hp. destruct Hp as [_ Hp].
    rewrite <- partition_add_indicators. unfold partition.
    apply filter_In. split; assumption.
Qed.

(* ----------------------------------------------------------------- *)
(** ** The symbol selector *)

Lemma symbol_eqb_eq (a b : option string) : symbol_eqb a b = true <-> a = b.
Proof.
  destruct a as [x|], b as [y|]; simpl; try (split; congruence).
  rewrite String.eqb_eq. split; congruence.
Qed.

Lemma In_unique (x : option string) (l : list (option string)) :
  In x (unique l) <-> In x l.
Proof.
  induction l as [|y l IH]; simpl; [reflexivity|].
  rewrite filter_In, IH, negb_true_iff.
  destruct (symbol_eqb y x) eqn:E.
  - apply symbol_eqb_eq in E. subst. intuition congruence.
  - intuition.
Qed.

Lemma NoDup_unique (l : list (option string)) : NoDup (unique l).
Proof.
  induction l as [|y l IH]; simpl; constructor.
  - rewrite filter_In, negb_true_iff. intros [_ H].
    rewrite (proj2 (symbol_eqb_eq y y) eq_refl) in H. discriminate.
  - apply NoDup_filter. assumption.
Qed.

Lemma insert_symbol_perm (s : option string) (l : list (option string)) :
  Permutation (insert_symbol s l) (s :: l).
Proof.
  induction l as [|x l IH]; simpl; [reflexivity|].
  destruct (symbol_le s x); [reflexivity|].
  rewrite IH. apply perm_swap.
Qed.

Lemma sort_symbols_perm (l : list (option string)) :
  Permutation (sort_symbols l) l.
Proof.
  induction l as [|s l IH]; simpl; [reflexivity|].
  rewrite insert_symbol_perm, IH. reflexivity.
Qed.

Lemma symbol_le_total (a b : option string) :
  symbol_le a b = false -> symbol_le b a = true.
Proof.
  unfold symbol_le.
  rewrite (opt_compare_antisym _ string_compare_antisym a b).
  destruct (opt_compare String_as_OT.compare a b); simpl; congruence.
Qed.

Lemma symbol_le_trans (a b c : option string) :
  symbol_le a b = true -> symbol_le b c = true -> symbol_le a c = true.
Proof.
  unfold symbol_le.
  destruct (opt_compare String_as_OT.compare a b) eqn:Hab;
    try discriminate; intros _.
  - apply (opt_compare_eq _ string_compare_eq) in Hab. subst b. auto.
  - destruct (opt_compare String_as_OT.compare b c) eqn:Hbc;
      try discriminate; intros _.
    + apply (opt_compare_eq _ string_compare_eq) in Hbc. subst c.
      rewrite Hab. reflexivity.
    + rewrite (opt_compare_trans _ string_compare_trans _ _ _ Hab Hbc).
      reflexivity.
Qed.

Lemma symbol_le_antisym (a b : option string) :
  symbol_le a b = true -> symbol_le b a = true -> a = b.
Proof.
  unfold symbol_le.
  rewrite (opt_compare_antisym _ string_compare_antisym a b).
  destruct (opt_compare String_as_OT.compare a b) eqn:E; simpl;
    try discriminate.
  intros _ _. apply (opt_compare_eq _ string_compare_eq). assumption.
Qed.

Lemma sort_symbols_sorted (l : list (option string)) :
  StronglySorted (fun a b => symbol_le a b = true) (sort_symbols l).
Proof.
  induction l as [|s l IH]; simpl; [constructor|].
  induction IH as [|y t St IHt Fy]; simpl.
  - constructor; constructor.
  - destruct (symbol_le s y) eqn:E.
    + constructor; [constructor; assumption|].
      constructor; [assumption|].
      rewrite Forall_forall in *. intros z Hz.
      apply symbol_le_trans with y; auto.
    + constructor; [assumption|].
      rewrite Forall_forall in *. intros z Hz.
      apply (Permutation_in _ (insert_symbol_perm s t)) in Hz.
      destruct Hz as [<-|Hz]; [apply symbol_le_total; assumption | auto].
Qed.

Lemma key_le_symbol_le (a b : Row) :
  key_le a b = true -> symbol_le (Symbol a) (Symbol b) = true.
Proof.
  unfold key_le, key_compare, symbol_le.
  destruct (opt_compare String_as_OT.compare (Symbol a) (Symbol b));
    congruence.
Qed.

(** X11.  On a frame in which no symbol is missing, the selector offers
    every symbol of the frame exactly once, in ascending order; its default
    is the symbol of the first row, which on the sorted frame is the first
    option; only an empty frame has no default. *)
Theorem symbol_selector (df : list IndicatorRow) :
  (forall r, In r df -> Symbol (base r) <> None) ->
  exists options,
    symbol_options df = Ok options
    /\ NoDup options
    /\ StronglySorted (fun a b => symbol_le a b = true) options
    /\ (forall s, In s options <-> exists r, In r df /\ Symbol (base r) = s)
    /\ (df = [] <-> default_selection df = Raised "IndexError")
    /\ (forall r rest, df = r :: rest ->
          default_selection df = Ok [Symbol (base r)]
          /\ In (Symbol (base r)) options
          /\ (key_sorted (map base df) ->
              hd_error options = Some (Symbol (base r)))).
Proof.
  intros H.
  set (u := unique (Symbol_column df)).
  assert (Mem : forall s, In s (sort_symbols u)
                          <-> exists r, In r df /\ Symbol (base r) = s).
  { intros s. split.
    - intros Hs. apply (Permutation_in _ (sort_symbols_perm u)) in Hs.
      unfold u in Hs. apply (proj1 (In_unique _ _)) in Hs.
      unfold Symbol_column in Hs.
      apply in_map_iff in Hs. destruct Hs as (r & E & Hr). eauto.
    - intros (r & Hr & E).
      apply (Permutation_in _ (Permutation_sym (sort_symbols_perm u))).
      unfold u. apply (proj2 (In_unique _ _)).
      unfold Symbol_column. apply in_map_iff. eauto. }
  assert (NoNone : existsb is_none u = false).
  { destruct (existsb is_none u) eqn:E; [|reflexivity].
    apply existsb_exists in E. destruct E as (x & Hx & Nx).
    unfold u in Hx. apply (proj1 (In_unique _ _)) in Hx.
    unfold Symbol_column in Hx.
    apply in_map_iff in Hx. destruct Hx as (r & E & Hr).
    destruct x; [discriminate|]. exfalso. exact (H r Hr E). }
  exists (sort_symbols u).
  split; [unfold symbol_options; fold u; rewrite NoNone; reflexivity|].
  split.
  { apply (Permutation_NoDup (Permutation_sym (sort_symbols_perm u))).
    apply NoDup_unique. }
  split; [apply sort_symbols_sorted|].
  split; [exact Mem|].
  split.
  { split; [intros ->; reflexivity|].
    destruct df; [reflexivity | discriminate]. }
  intros r rest ->.
  assert (Inr : In (Symbol (base r)) (sort_symbols u))
    by (apply Mem; exists r; split; [left; reflexivity | reflexivity]).
  split; [reflexivity|]. split; [exact Inr|].
  intros Sorted. cbn [map] in Sorted.
  inversion Sorted as [|? ? _ First]; subst.
  assert (Least : forall s, In s (sort_symbols u) ->
                            symbol_le (Symbol (base r)) s = true).
  { intros s Hs. apply Mem in Hs. destruct Hs as (r' & [<-|Hr'] & <-).
    - unfold symbol_le.
      rewrite (proj2 (opt_compare_eq _ string_compare_eq _ _) eq_refl).
      reflexivity.
    - apply key_le_symbol_le. rewrite Forall_forall in First.
      apply First. apply in_map. assumption. }
  pose proof (sort_symbols_sorted u) as S.
  destruct (sort_symbols u) as [|h t]; [destruct Inr|].
  cbn [hd_error]. f_equal. inversion S as [|? ? _ Fh]; subst.
  destruct Inr as [E|Hin]; [assumption|].
  rewrite Forall_forall in Fh.
  apply symbol_le_antisym; [apply Fh; assumption|].
  apply Least. left. reflexivity.
Qed.

(* ----------------------------------------------------------------- *)
(** ** The further properties on the sample data *)

Lemma range_check (lo hi : Qc) (qs : list Qc) :
  forallb (fun q => Qcleb lo q && Qcleb q hi) qs = true ->
  forall q, In q qs -> lo <= q /\ q <= hi.
Proof.
  intros H q Hq. rewrite forallb_forall in H. specialize (H q Hq).
  apply andb_true_iff in H. destruct H as [A B].
  split; apply Qcleb_true; assumption.
Qed.

Lemma preprocess_rows_complete_witness :
  isnan (Close Sample.r2) = false.
Proof.
  destruct (preprocess_rows_complete Sample.small Sample.r2)
    as (_ & _ & H & _).
  - left. reflexivity.
  - exact H.
Defined.

Lemma dropna_removes_leading_block_witness :
  exists n, dropna (ffill Sample.small) = skipn n (ffill Sample.small)
            /\ Forall (fun r => row_has_na r = true)
                      (firstn n (ffill Sample.small))
            /\ complete (skipn n (ffill Sample.small)).
Proof.
  apply (dropna_removes_leading_block 0 Sample.small).
  repeat constructor.
Defined.

Lemma short_partition_undefined_witness :
  Forall (fun r => SMA_50 r = NaN) (partition "ABC" Sample.small_df).
Proof.
  destruct (short_partition_undefined (preprocess Sample.small) "ABC")
    as (_ & H & _).
  apply Forall_forall. apply H. simpl. lia.
Defined.

Lemma macd_within_range_witness :
  exists e12 e26 : Qc,
    nth_error (map MACD (partition "ABC" (add_indicators Sample.df))) 30
    = Some (Fin (e12 - e26))
    /\ Qc_of_Z 10 - Qc_of_Z 16 <= e12 - e26
    /\ e12 - e26 <= Qc_of_Z 16 - Qc_of_Z 10.
Proof.
  destruct (macd_within_range Sample.df "ABC" Sample.abc_close
              (Qc_of_Z 10) (Qc_of_Z 16) 30)
    as (e12 & e26 & _ & _ & M & _ & _ & _ & _ & A & B).
  - vm_compute. reflexivity.
  - apply range_check. vm_compute. reflexivity.
  - simpl. lia.
  - exists e12, e26. auto.
Defined.

Lemma symbol_selector_witness :
  exists options,
    symbol_options Sample.small_df = Ok options
    /\ hd_error options = Some (Some "ABC"%string).
Proof.
  destruct (symbol_selector Sample.small_df)
    as (options & E & _ & _ & _ & _ & D).
  - intros r [<-|[]]. discriminate.
  - exists options. split; [exact E|].
    destruct (D (mkIndicatorRow Sample.r2 NaN NaN NaN (Fin 0)) [])
      as (_ & _ & H).
    + vm_compute. reflexivity.
    + apply H. repeat constructor.
Defined.

Lemma default_range_keeps_all_witness :
  exists lo hi,
    min_date Sample.small_df = Some lo /\ max_date Sample.small_df = Some hi
    /\ filtered_df Sample.small_df ["ABC"%string] lo hi = Sample.small_df.
Proof.
  destruct (default_range_keeps_all Sample.small_df ["ABC"%string])
    as (lo & hi & A & B & _ & _ & F).
  - discriminate.
  - intros r [<-|[]]. exists "ABC"%string, 2%Z.
    repeat split. left. reflexivity.
  - exists lo, hi. auto.
Defined.

Lemma stock_data_of_symbol_witness :
  stock_data (filtered_df (add_indicators Sample.df) ["ABC"%string] 0 59)
             "XYZ" = []
  /\ date_ascending
       (stock_data (filtered_df (add_indicators Sample.df) ["ABC"%string] 10 20)
                   "ABC").
Proof.
  split.
  - destruct (stock_data_of_symbol Sample.raw ["ABC"%string] 0 59 "XYZ")
      as (_ & H & _).
    apply H. intros [E|[]]. discriminate E.
  - destruct (stock_data_of_symbol Sample.raw ["ABC"%string] 10 20 "ABC")
      as (_ & _ & H & _).
    exact H.
Defined.

(* ----------------------------------------------------------------- *)
(** ** Filling twice *)

Lemma fill_cells_twice (p c : list cell) :
  fill_cells p (fill_cells p c) = fill_cells p c.
Proof.
  revert c. induction p as [|x p IH]; intros [|y c]; simpl; try reflexivity.
  rewrite IH. f_equal. unfold fill_cell.
  destruct (cell_isna y) eqn:Y; [|rewrite Y; reflexivity].
  destruct (cell_isna x); reflexivity.
Qed.

Lemma fill_row_twice (p r : Row) : fill_row p (fill_row p r) = fill_row p r.
Proof.
  unfold fill_row. cbn [Symbol Date Close Other].
  rewrite fill_cells_twice. f_equal.
  - destruct (Symbol r), (Symbol p); reflexivity.
  - destruct (Date r), (Date p); reflexivity.
  - unfold fill_float. destruct (isnan (Close r)) eqn:C;
      [|rewrite C; reflexivity].
    destruct (isnan (Close p)); reflexivity.
Qed.

Lemma ffill_from_twice (rest : DataFrame) (p : Row) :
  ffill_from p (ffill_from p rest) = ffill_from p rest.
Proof.
  revert p. induction rest as [|r rest IH]; intros p; simpl; [reflexivity|].
  rewrite fill_row_twice, IH. reflexivity.
Qed.

(** X15.  Forward filling a frame that was forward filled changes
    nothing, and the fill never changes the number of rows. *)
Theorem ffill_idempotent (df : DataFrame) :
  ffill (ffill df) = ffill df /\ length (ffill df) = length df.
Proof.
  split; [|apply length_ffill].
  destruct df as [|r rest]; simpl; [reflexivity|].
  rewrite ffill_from_twice. reflexivity.
Qed.


(* ================================================================= *)
(** * Where the indicators are undefined *)

(* ----------------------------------------------------------------- *)
(** ** A value that is no number empties its windows *)







(* ----------------------------------------------------------------- *)
(** ** Simple moving averages *)




(* ----------------------------------------------------------------- *)
(** ** MACD *)






(* ----------------------------------------------------------------- *)
(** ** RSI *)



Lemma div_nan_l (y : float64) : div NaN y = NaN.
Proof. reflexivity. Qed.









(* ----------------------------------------------------------------- *)
(** ** Only losses *)

(** X7.  Where the 14-step mean gain is a zero and the mean loss a
    positive finite number, [compute_rsi] returns exactly 0. *)
Theorem rsi_zero_gain_is_0 (series : Series) (i : nat) (g : float64) (l : Qc) :
  nth_error (rsi_gain 14 series) i = Some g ->
  nth_error (rsi_loss 14 series) i = Some (Fin l) ->
  is_zero g = true -> 0 < l ->
  nth_error (compute_rsi series) i = Some (Fin 0).
Proof.
  intros Hg Hl Z L.
  destruct (compute_rsi_at _ _ _ _ Hg Hl) as [_ H].
  rewrite H, rsi_of_rs_zero by assumption. reflexivity.
Qed.

Lemma rsi_zero_gain_is_0_witness :
  nth_error (compute_rsi Sample.falling) 14 = Some (Fin 0).
Proof.
  apply (rsi_zero_gain_is_0 Sample.falling 14 (Fin 0)
           (val (nth 14 (rsi_loss 14 Sample.falling) NaN))).
  - vm_compute. reflexivity.
  - vm_compute. reflexivity.
  - reflexivity.
  - vm_compute. reflexivity.
Defined.
